(** * Mars-Troughs: the trough model and the parameter estimator

    A shallow embedding of [mars_troughs/trough.py] (class [Trough]) and of
    [mars_troughs/mcmc.py] (class [MCMC]), and the properties of the
    repository's specification that are stated about them.

    Conventions of the embedding.
    - A Python [float] (and a numpy float array entry) is a value of an
      abstract numeric type [F] with the operations of the class [Num];
      no law of arithmetic is assumed unless a theorem lists it, so the
      theorems that need none also hold when [F] is read as binary64.
      Concrete runs use the instance on [Q].
    - A numpy array is a [list]; an integer array is a [list Z].
    - A [dict] is a [gmap string F].
    - An exception raised inside [trough.py] is [None] in the [option]
      monad. A call of [mcmc.py] ends in an [Outcome], the value returned
      or the exception raised, paired with the object as the call leaves
      it.
    - A method that mutates [self] returns the new object.
    - Python binds the arguments of a call by position: a call from one
      module into the other is embedded with its argument list, bound to
      the parameters of the method called in the order of its signature.
    - [scipy] splines are kept symbolic: a spline object is the term that
      records the arrays it was built from, so two spline objects are
      equal exactly when they were built from the same data. *)

From Stdlib Require Import QArith Qabs.
From stdpp Require Import gmap strings list.

Open Scope string_scope.
Open Scope list_scope.
Open Scope nat_scope.
Open Scope stdpp_scope.

(** ** Numbers *)

(** The arithmetic the two modules use on floats. [lit q] is the float
    denoted by the decimal or integer literal [q] (also the conversion of
    a Python [int], such as [len(x_data)] or [sampler.iteration]). *)
Class Num (F : Type) := {
  lit  : Q → F;
  fadd : F → F → F;
  fsub : F → F → F;
  fmul : F → F → F;
  fdiv : F → F → F;
  fneg : F → F;
  fabs : F → F;
  fltb : F → F → bool
}.

(** [numpy]'s [log], [sin], [cos] and [pi]. *)
Class Special (F : Type) := {
  flog : F → F;
  fsin : F → F;
  fcos : F → F;
  fpi  : F
}.

(** The laws of [<] on numbers that are not NaN: a strict weak order. *)
Class NumOrder (F : Type) `{Num F} : Prop := {
  fltb_irrefl : ∀ a : F, fltb a a = false;
  fltb_trans  : ∀ a b c : F, fltb a b = true → fltb b c = true → fltb a c = true;
  fltb_negtrans : ∀ a b c : F, fltb a b = false → fltb b c = false → fltb a c = false
}.

(** Rational numbers, every result in lowest terms. *)
#[export] Instance Q_Num : Num Q := {|
  lit q := Qred q;
  fadd a b := Qred (a + b);
  fsub a b := Qred (a - b);
  fmul a b := Qred (a * b);
  fdiv a b := Qred (a / b);
  fneg a := Qred (- a);
  fabs a := Qred (Qabs a);
  fltb a b := match Qcompare a b with Lt => true | _ => false end
|}.

Section Arrays.
Context {F : Type} `{Num F}.

(** [x ** 2]: numpy squares by one multiplication. *)
Definition fpow2 (x : F) : F := fmul x x.

(** [a.sum()], accumulated from the left starting at zero. *)
Definition fsum (a : list F) : F := foldl fadd (lit 0) a.

(** [len(a)] as a float. *)
Definition flen (a : list F) : F := lit (inject_Z (Z.of_nat (length a))).

(** [np.mean(a)]. *)
Definition fmean (a : list F) : F := fdiv (fsum a) (flen a).

(** [np.zeros_like(a)]. *)
Definition zeros_like (a : list F) : list F := replicate (length a) (lit 0).

(** An elementwise binary operation on two one-dimensional arrays, with
    numpy's broadcasting: equal lengths pair up, an array of length one
    is stretched, any other pair of lengths raises [ValueError]. *)
Definition broadcast2 (f : F → F → F) (a b : list F) : option (list F) :=
  if decide (length a = length b) then Some (zip_with f a b)
  else match a, b with
       | [x], _ => Some (map (f x) b)
       | _, [y] => Some (map (λ x, f x y) a)
       | _, _ => None
       end.

(** [np.argmin(a)]: the scan keeps the first position of the least value
    seen; an empty array raises [ValueError]. *)
Fixpoint argmin_from (best : nat) (bestv : F) (i : nat) (a : list F) : nat :=
  match a with
  | [] => best
  | v :: a' =>
      if fltb v bestv then argmin_from i v (S i) a'
      else argmin_from best bestv (S i) a'
  end.

Definition argmin (a : list F) : option nat :=
  match a with
  | [] => None
  | v :: a' => Some (argmin_from 0 v 1 a')
  end.

(** [enumerate(zip(a, b))]. *)
Definition enumerate {A : Type} (l : list A) : list (nat * A) :=
  zip (seq 0 (length l)) l.

(** [any(a < c)] and [any(a > c)] for an array [a] and a scalar [c]. *)
Definition any_lt (a : list F) (c : F) : bool := existsb (λ v, fltb v c) a.
Definition any_gt (a : list F) (c : F) : bool := existsb (λ v, fltb c v) a.

(** [np.all(a < c)] for arrays compared entry by entry with a scalar. *)
Definition all_lt (a : list F) (c : F) : bool := forallb (λ v, fltb v c) a.
End Arrays.

(** [m.T] for a two-dimensional array given by its rows. *)
Definition transpose {A : Type} (rows : list (list A)) : list (list A) :=
  match rows with
  | [] => []
  | r :: _ => foldr (zip_with cons) (replicate (length r) []) rows
  end.

(** ** Splines (scipy.interpolate), kept symbolic *)

(** [InterpolatedUnivariateSpline(x, y)] and [spline.antiderivative()]. *)
Inductive UnivariateSpline (F : Type) : Type :=
| IUS (x y : list F)
| Antiderivative (s : UnivariateSpline F).
Arguments IUS {F} x y.
Arguments Antiderivative {F} s.

(** [RectBivariateSpline(x, y, z)]; here [x] is the integer lag axis. *)
Inductive BivariateSpline (F : Type) : Type :=
| RBS (x : list Z) (y : list F) (z : list (list F)).
Arguments RBS {F} x y z.

(** [spline.ev(xi, yi)] of a bivariate spline at one point: the
    interpolation of [scipy], an external library, left abstract. *)
Class Scipy (F : Type) := {
  RBS_ev : BivariateSpline F → F → F → F
}.

(** ** The submodels (external collaborators) *)

(** An accumulation model object: built from the insolation times, the
    insolation and its parameters; a lag model object: its parameters.
    The kind is what the registry resolved the model's name to. *)
Record AccumulationModel (K F : Type) := {
  acc_kind : K;
  acc_times : list F;
  acc_insolation : list F;
  acc_parameters : list F
}.
Arguments acc_kind {K F} _.
Arguments acc_times {K F} _.
Arguments acc_insolation {K F} _.
Arguments acc_parameters {K F} _.

Record LagModel (K F : Type) := {
  lag_kind : K;
  lag_parameters : list F
}.
Arguments lag_kind {K F} _.
Arguments lag_parameters {K F} _.

(** Modelled from the spec: the submodel classes and the two registries
    [ACCUMULATION_MODEL_MAP] and [LAG_MODEL_MAP] of the package's
    [__init__] are not among the sources. Section 4.1 of the specification
    gives their contract: selection by name from a closed registry, and
    evaluations that are deterministic, side-effect free and vectorised
    over the times, so each is a function of one time applied entry by
    entry. [get_xt] also receives the antiderivative spline and the
    cotangent and cosecant of the slope. *)
Class Submodels (F : Type) := {
  AccKind : Type;
  LagKind : Type;
  ACCUMULATION_MODEL_MAP : gmap string AccKind;
  LAG_MODEL_MAP : gmap string LagKind;
  get_lag_at_t_1 : LagModel LagKind F → F → F;
  get_yt_1 : AccumulationModel AccKind F → F → F;
  get_xt_1 : AccumulationModel AccKind F → F → UnivariateSpline F → F → F → F
}.

Section SubmodelMethods.
Context {F : Type} `{Submodels F}.

Definition get_lag_at_t (m : LagModel LagKind F) (times : list F) : list F :=
  map (get_lag_at_t_1 m) times.

Definition get_yt (m : AccumulationModel AccKind F) (times : list F) : list F :=
  map (get_yt_1 m) times.

Definition get_xt (m : AccumulationModel AccKind F) (times : list F)
    (int_retreat : UnivariateSpline F) (cot_angle csc_angle : F) : list F :=
  map (λ t, get_xt_1 m t int_retreat cot_angle csc_angle) times.

(** [model.parameters = params]. *)
Definition acc_set_parameters (m : AccumulationModel AccKind F) (p : list F)
    : AccumulationModel AccKind F :=
  {| acc_kind := acc_kind m; acc_times := acc_times m;
     acc_insolation := acc_insolation m; acc_parameters := p |}.

Definition lag_set_parameters (m : LagModel LagKind F) (p : list F)
    : LagModel LagKind F :=
  {| lag_kind := lag_kind m; lag_parameters := p |}.
End SubmodelMethods.

(** ** The trough model ([trough.py]) *)

(** The attributes of a [Trough] object. The three attributes that
    [compute_model_splines] assigns do not exist before its first call,
    hence their [option] type. *)
Record Trough (F : Type) `{Submodels F} := {
  _angle : F;
  _csc : F;
  _cot : F;
  acc_model_name : string;
  lag_model_name : string;
  errorbar : F;
  meters_per_pixel : list F;
  insolation : list F;
  ins_times : list F;
  retreats : list (list F);
  lags : list Z;
  ret_data_spline : BivariateSpline F;
  re2_data_spline : BivariateSpline F;
  accuModel : AccumulationModel AccKind F;
  lagModel : LagModel LagKind F;
  lag_model_t : list F;
  retreat_model_t : list F;
  lag_model_t_spline : option (UnivariateSpline F);
  retreat_model_t_spline : option (UnivariateSpline F);
  int_retreat_model_t_spline : option (UnivariateSpline F)
}.
Arguments _angle {F _} _.
Arguments _csc {F _} _.
Arguments _cot {F _} _.
Arguments acc_model_name {F _} _.
Arguments lag_model_name {F _} _.
Arguments errorbar {F _} _.
Arguments meters_per_pixel {F _} _.
Arguments insolation {F _} _.
Arguments ins_times {F _} _.
Arguments retreats {F _} _.
Arguments lags {F _} _.
Arguments ret_data_spline {F _} _.
Arguments re2_data_spline {F _} _.
Arguments accuModel {F _} _.
Arguments lagModel {F _} _.
Arguments lag_model_t {F _} _.
Arguments retreat_model_t {F _} _.
Arguments lag_model_t_spline {F _} _.
Arguments retreat_model_t_spline {F _} _.
Arguments int_retreat_model_t_spline {F _} _.

(** [np.arange(n) + 1] on integers. *)
Definition arange_plus_1 (n : nat) : list Z :=
  map (λ k, (Z.of_nat k + 1)%Z) (seq 0 n).

(** [a[0] -= 1] and [a[-1] = v] on an integer array; both raise
    [IndexError] on an empty array. *)
Definition decr_first (a : list Z) : option (list Z) :=
  v ← a !! 0; Some (<[0 := (v - 1)%Z]> a).

Definition set_last (v : Z) (a : list Z) : option (list Z) :=
  match a with
  | [] => None
  | _ => Some (<[length a - 1 := v]> a)
  end.

(** The lag axis of the constructor:
    [lags = np.arange(16) + 1; lags[0] -= 1; lags[-1] = 20]. *)
Definition make_lags : option (list Z) :=
  decr_first (arange_plus_1 16) ≫= set_last 20.

Section TroughModel.
Context {F : Type} `{Num F} `{Special F} `{Scipy F} `{Submodels F}.

(** [get_retreat_model_t]: [self.ret_data_spline.ev(lag_t, time)], the
    spline evaluated at the points [(lag_t[i], time[i])]. *)
Definition get_retreat_model_t (self : Trough F) (lag_t time : list F)
    : option (list F) :=
  broadcast2 (RBS_ev (ret_data_spline self)) lag_t time.

(** The three assignments of the [angle] setter. *)
Definition angle_radians (value : F) : F :=
  fdiv (fmul value fpi) (lit 180.0).
Definition csc_of (a : F) : F := fdiv (lit 1.0) (fsin a).
Definition cot_of (a : F) : F := fmul (fcos a) (csc_of a).

(** [compute_model_splines]. *)
Definition compute_model_splines (self : Trough F) : Trough F :=
  let retreat_spline := IUS (ins_times self) (retreat_model_t self) in
  {| _angle := _angle self; _csc := _csc self; _cot := _cot self;
     acc_model_name := acc_model_name self;
     lag_model_name := lag_model_name self;
     errorbar := errorbar self;
     meters_per_pixel := meters_per_pixel self;
     insolation := insolation self; ins_times := ins_times self;
     retreats := retreats self; lags := lags self;
     ret_data_spline := ret_data_spline self;
     re2_data_spline := re2_data_spline self;
     accuModel := accuModel self; lagModel := lagModel self;
     lag_model_t := lag_model_t self;
     retreat_model_t := retreat_model_t self;
     lag_model_t_spline := Some (IUS (ins_times self) (lag_model_t self));
     retreat_model_t_spline := Some retreat_spline;
     int_retreat_model_t_spline := Some (Antiderivative retreat_spline) |}.

(** [Trough.__init__]. The two files arrive parsed: [insolation_file] is
    the rows of the insolation file after the skipped header, each an
    insolation value and a time; [retreat_file] is the rows of the retreat
    file. An unknown model name raises [KeyError]. *)
Definition Trough_init (acc_params lag_params : list F)
    (acc_model_name lag_model_name : string) (errorbar angle : F)
    (insolation_file : list (F * F)) (retreat_file : list (list F))
    : option (Trough F) :=
  let insolation := map fst insolation_file in
  let ins_times := map snd insolation_file in
  let retreats := transpose retreat_file in
  let a := angle_radians angle in
  let ins_times := map fneg ins_times in
  lags ← make_lags;
  let ret_data_spline := RBS lags ins_times retreats in
  let re2_data_spline := RBS lags ins_times (map (map fpow2) retreats) in
  acc_k ← ACCUMULATION_MODEL_MAP !! acc_model_name;
  lag_k ← LAG_MODEL_MAP !! lag_model_name;
  let accuModel :=
    {| acc_kind := acc_k; acc_times := ins_times;
       acc_insolation := insolation; acc_parameters := acc_params |} in
  let lagModel := {| lag_kind := lag_k; lag_parameters := lag_params |} in
  let lag_model_t := get_lag_at_t lagModel ins_times in
  retreat_model_t ← broadcast2 (RBS_ev ret_data_spline) lag_model_t ins_times;
  Some (compute_model_splines
    {| _angle := a; _csc := csc_of a; _cot := cot_of a;
       acc_model_name := acc_model_name; lag_model_name := lag_model_name;
       errorbar := errorbar;
       meters_per_pixel := [lit 500.0; lit 20.0];
       insolation := insolation; ins_times := ins_times;
       retreats := retreats; lags := lags;
       ret_data_spline := ret_data_spline;
       re2_data_spline := re2_data_spline;
       accuModel := accuModel; lagModel := lagModel;
       lag_model_t := lag_model_t; retreat_model_t := retreat_model_t;
       lag_model_t_spline := None; retreat_model_t_spline := None;
       int_retreat_model_t_spline := None |}).

(** [set_model(acc_params, lag_params, errorbar)]: the spline attributes
    are left as they are. *)
Definition set_model (self : Trough F) (acc_params lag_params : list F)
    (new_errorbar : F) : option (Trough F) :=
  let accuModel' := acc_set_parameters (accuModel self) acc_params in
  let lagModel' := lag_set_parameters (lagModel self) lag_params in
  let lag_model_t' := get_lag_at_t lagModel' (ins_times self) in
  retreat_model_t' ← get_retreat_model_t self lag_model_t' (ins_times self);
  Some
    {| _angle := _angle self; _csc := _csc self; _cot := _cot self;
       acc_model_name := acc_model_name self;
       lag_model_name := lag_model_name self;
       errorbar := new_errorbar;
       meters_per_pixel := meters_per_pixel self;
       insolation := insolation self; ins_times := ins_times self;
       retreats := retreats self; lags := lags self;
       ret_data_spline := ret_data_spline self;
       re2_data_spline := re2_data_spline self;
       accuModel := accuModel'; lagModel := lagModel';
       lag_model_t := lag_model_t'; retreat_model_t := retreat_model_t';
       lag_model_t_spline := lag_model_t_spline self;
       retreat_model_t_spline := retreat_model_t_spline self;
       int_retreat_model_t_spline := int_retreat_model_t_spline self |}.

(** [np.all(a)] for the optional argument of [get_trajectory]: for
    [None] numpy (before 2.0) gives back [None], for an array the
    boolean that tells whether no entry is zero (an entry counts as zero
    here when it is neither below nor above zero). *)
Definition np_all (a : option (list F)) : option bool :=
  a ← a; Some (forallb (λ v, fltb v (lit 0) || fltb (lit 0) v) a).

(** [get_trajectory(times=None)]: the test [np.all(times) is None]
    replaces the times by the insolation times; reading the spline
    attribute before it exists raises, and so would the submodel on
    times that are still [None]. *)
Definition get_trajectory (self : Trough F) (times : option (list F))
    : option (list F * list F) :=
  let times := match np_all times with
               | None => Some (ins_times self)
               | Some _ => times
               end in
  int_retreat ← int_retreat_model_t_spline self;
  let cot_angle := _cot self in
  let csc_angle := _csc self in
  times ← times;
  let y := get_yt (accuModel self) times in
  let x := get_xt (accuModel self) times int_retreat cot_angle csc_angle in
  Some (x, y).

(** [_L2_distance(x1, x2, y1, y2)] with arrays [x1], [y1] and scalars
    [x2], [y2], as [get_nearest_points] calls it. *)
Definition _L2_distance (x1 : list F) (x2 : F) (y1 : list F) (y2 : F)
    : option (list F) :=
  broadcast2 fadd (map (λ x, fpow2 (fsub x x2)) x1)
                  (map (λ y, fpow2 (fsub y y2)) y1).

(** The type of the pluggable distance function. *)
Definition DistFunc : Type := list F → F → list F → F → option (list F).

(** One turn of the loop of [get_nearest_points]. *)
Definition nearest_step (dist_func : DistFunc) (x_model y_model : list F)
    (out : option (list F * list F)) (item : nat * (F * F))
    : option (list F * list F) :=
  '(x_out, y_out) ← out;
  let '(i, (xdi, ydi)) := item in
  dist ← dist_func x_model xdi y_model ydi;
  ind ← argmin dist;
  xm ← x_model !! ind;
  ym ← y_model !! ind;
  Some (<[i := xm]> x_out, <[i := ym]> y_out).

(** [get_nearest_points(x_data, y_data, dist_func=None)]. *)
Definition get_nearest_points (self : Trough F) (x_data y_data : list F)
    (dist_func : option DistFunc) : option (list F * list F) :=
  let dist_func := default _L2_distance dist_func in
  '(x_model, y_model) ← get_trajectory self None;
  let x_out := zeros_like x_data in
  let y_out := zeros_like y_data in
  foldl (nearest_step dist_func x_model y_model) (Some (x_out, y_out))
        (enumerate (zip x_data y_data)).

(** [lnlikelihood(x_data, y_data)]. *)
Definition lnlikelihood (self : Trough F) (x_data y_data : list F) : option F :=
  '(x_model, y_model) ← get_nearest_points self x_data y_data None;
  match map fpow2 (map (fmul (errorbar self)) (meters_per_pixel self)) with
  | [xvar; yvar] =>
      dx ← broadcast2 fsub x_data x_model;
      dy ← broadcast2 fsub y_data y_model;
      chi2 ← broadcast2 fadd (map (λ d, fdiv (fpow2 d) xvar) dx)
                             (map (λ d, fdiv (fpow2 d) yvar) dy);
      Some (fsub (fmul (lit (-0.5)) (fsum chi2))
                 (fmul (fmul (lit 0.5) (flen x_data))
                       (flog (fmul xvar yvar))))
  | _ => None
  end.
End TroughModel.

(** ** The parameter estimator ([mcmc.py]) *)

(** The ensemble sampler of [emcee], an external library, enters the
    loop through one method: [autocorr_time_of it k] is the
    autocorrelation time that [sampler.get_autocorr_time(tol=0)]
    estimates for parameter [k] from the chain of the first [it]
    iterations. The chain is random; the loop is studied for an
    arbitrary sequence of estimates. *)
Class Sampler (F : Type) := {
  autocorr_time_of : nat → nat → F
}.

(** The attributes of an [MCMC] object that the likelihood and the
    sampling loop read. [maxSteps] and [subIter] count iterations and
    are natural numbers here. *)
Record MCMC (F : Type) `{Submodels F} := {
  maxSteps : nat;
  subIter : nat;
  xdata : list F;
  ydata : list F;
  times : list F;
  tr : Trough F;
  parameter_names : list string;
  ndim : nat;
  nwalkers : nat
}.
Arguments maxSteps {F _} _.
Arguments subIter {F _} _.
Arguments xdata {F _} _.
Arguments ydata {F _} _.
Arguments times {F _} _.
Arguments tr {F _} _.
Arguments parameter_names {F _} _.
Arguments ndim {F _} _.
Arguments nwalkers {F _} _.

(** [old_tau]: the scalar [np.inf] before the first check, then the
    array of the previous check. *)
Inductive OldTau (F : Type) : Type :=
| Inf
| Arr (tau : list F).
Arguments Inf {F}.
Arguments Arr {F} tau.

(** The variables of the sampling loop. [converged] is unbound in the
    source until the first check; here it starts as [false]. *)
Record LoopState (F : Type) := {
  iteration : nat;
  index : nat;
  autocorr : list F;
  old_tau : OldTau F;
  converged : bool
}.
Arguments iteration {F} _.
Arguments index {F} _.
Arguments autocorr {F} _.
Arguments old_tau {F} _.
Arguments converged {F} _.

(** The exceptions that a call of [mcmc.py] can end in. [RaisedInTrough]
    is an exception raised inside a method of [trough.py], which the
    embedding of that module records as [None]. *)
Inductive Exception : Type :=
| KeyError
| TypeError
| AttributeError
| RaisedInTrough.

(** How a call ends: it returns a value or raises. *)
Inductive Outcome (A : Type) : Type :=
| Returned (a : A)
| Raised (e : Exception).
Arguments Returned {A} a.
Arguments Raised {A} e.

#[export] Instance Outcome_bind : MBind Outcome :=
  λ A B f r, match r with Returned a => f a | Raised e => Raised e end.

Definition of_option {A : Type} (o : option A) : Outcome A :=
  match o with Some a => Returned a | None => Raised RaisedInTrough end.

(** A Python value in argument position. The calls of [mcmc.py] pass
    model names, parameter lists, floats and the named vector. *)
Inductive PyValue (F : Type) : Type :=
| PyStr (s : string)
| PyFloat (x : F)
| PyList (l : list F)
| PyDict (d : gmap string F).
Arguments PyStr {F} s.
Arguments PyFloat {F} x.
Arguments PyList {F} l.
Arguments PyDict {F} d.

Section Estimator.
Context {F : Type} `{Num F} `{Special F} `{Scipy F} `{Submodels F}.
Context `{Sampler F}.

(** [MAP[key]] on a registry whose keys are model names: a list and a
    dict are not hashable, so the subscript raises [TypeError] before
    any look-up; a float is hashable and is no key. *)
Definition registry_name (key : PyValue F) : Outcome string :=
  match key with
  | PyStr s => Returned s
  | PyFloat _ => Raised KeyError
  | PyList _ | PyDict _ => Raised TypeError
  end.

(** The call [mt.Trough(...)] with the default data files. The
    positional arguments are bound to the parameters of [__init__] in
    the order of its signature: [acc_params], [lag_params],
    [acc_model_name], [lag_model_name], and then [errorbar] (default
    1.0) and [angle] (default 2.9); fewer than four raise [TypeError].
    The body reads the two names as registry keys (lines 78 and 81).
    Beyond that the constructor is embedded for arguments of the
    documented types, two lists and two floats, and the two paths are
    never passed; other calls are given as [TypeError]. *)
Definition call_Trough (args : list (PyValue F))
    (insolation_file : list (F * F)) (retreat_file : list (list F))
    : Outcome (Trough F) :=
  match args with
  | acc_params :: lag_params :: acc_model_name :: lag_model_name :: rest =>
      let errorbar := default (PyFloat (lit 1.0)) (rest !! 0) in
      let angle := default (PyFloat (lit 2.9)) (rest !! 1) in
      acc_name ← registry_name acc_model_name;
      lag_name ← registry_name lag_model_name;
      match acc_params, lag_params, errorbar, angle, drop 2 rest with
      | PyList acc_params, PyList lag_params, PyFloat errorbar, PyFloat angle, [] =>
          of_option (Trough_init acc_params lag_params acc_name lag_name
                                 errorbar angle insolation_file retreat_file)
      | _, _, _, _, _ => Raised TypeError
      end
  | _ => Raised TypeError
  end.

(** The call [tr.set_model(...)]. [set_model] of [trough.py] has the
    three parameters [acc_params], [lag_params] and [errorbar], none
    with a default: with any other number of arguments Python raises
    [TypeError] before the body runs. The body is embedded for arguments
    of the documented types, two lists and a float. *)
Definition call_set_model (self : Trough F) (args : list (PyValue F))
    : Outcome (Trough F) :=
  match args with
  | [PyList acc_params; PyList lag_params; PyFloat errorbar] =>
      of_option (set_model self acc_params lag_params errorbar)
  | _ => Raised TypeError
  end.

(** [tr.all_parameters]: the class of [trough.py] assigns no attribute
    and defines no property of this name, so the read raises
    [AttributeError]. *)
Definition all_parameters (self : Trough F) : Outcome (list string) :=
  Raised AttributeError.

(** [self.tr = ...], every other attribute kept. *)
Definition with_tr (self : MCMC F) (tr' : Trough F) : MCMC F :=
  {| maxSteps := maxSteps self; subIter := subIter self;
     xdata := xdata self; ydata := ydata self; times := times self;
     tr := tr'; parameter_names := parameter_names self;
     ndim := ndim self; nwalkers := nwalkers self |}.

(** The sentinel [-1e99]. *)
Definition sentinel : F := lit (-1e99).

(** [MCMC.ln_likelihood(params)]: how the call ends and the object as
    it leaves it. A missing [errorbar] raises [KeyError]. The model is
    updated by the call [self.tr.set_model(params)], one argument, the
    named vector. *)
Definition ln_likelihood (self : MCMC F) (params : gmap string F)
    : Outcome F * MCMC F :=
  match params !! "errorbar" with
  | None => (Raised KeyError, self)
  | Some errorbar =>
      if fltb errorbar (lit 0) then (Returned sentinel, self)
      else
        match call_set_model (tr self) [PyDict params] with
        | Raised e => (Raised e, self)
        | Returned tr' =>
            let self' := with_tr self tr' in
            let lag_t := get_lag_at_t (lagModel tr') (times self') in
            if any_lt lag_t (lit 0) || any_gt lag_t (lit 20) then
              (Returned sentinel, self')
            else
              (of_option (lnlikelihood tr' (xdata self') (ydata self')), self')
        end
  end.

(** [dict(zip(names, values))]: a later pair overrides an earlier one. *)
Definition dict_zip (names : list string) (values : list F) : gmap string F :=
  list_to_map (reverse (zip names values)).

(** [MCMC.neg_ln_likelihood(paramsArray)]. *)
Definition neg_ln_likelihood (self : MCMC F) (paramsArray : list F)
    : Outcome F * MCMC F :=
  let params := dict_zip (parameter_names self) paramsArray in
  let r := ln_likelihood self params in
  (v ← r.1; Returned (fneg v), r.2).

(** The data load of [MCMC.__init__] (lines 43 and 44) for a parsed
    file of two rows or more: [np.loadtxt(..., unpack=True)] gives the
    two columns as arrays, and the first is multiplied by 1000. (A
    single row would give two scalars, and an empty file cannot be
    unpacked.) *)
Definition load_TMP (data_file : list (F * F)) : list F * list F :=
  let xdata := map fst data_file in
  let ydata := map snd data_file in
  let xdata := map (λ x, fmul x (lit 1000)) xdata in
  (xdata, ydata).

(** The setup part of [MCMC.__init__], up to the count of walkers. The
    files arrive parsed; [load_insolation_data()] reads the insolation
    file that [Trough] reads by default. The model is built by the call
    of line 49, [mt.Trough(self.acc_model_name, self.lag_model_name,
    acc_params, lag_params, errorbar, angle)], six positional arguments,
    and the names are read from [self.tr.all_parameters]. *)
Definition MCMC_init (maxSteps subIter : nat)
    (acc_model_name lag_model_name : string) (acc_params lag_params : list F)
    (errorbar angle : F)
    (data_file insolation_file : list (F * F)) (retreat_file : list (list F))
    : Outcome (MCMC F) :=
  let '(xdata, ydata) := load_TMP data_file in
  let times := map snd insolation_file in
  let times := map fneg times in
  tr ← call_Trough [PyStr acc_model_name; PyStr lag_model_name;
                    PyList acc_params; PyList lag_params;
                    PyFloat errorbar; PyFloat angle]
                   insolation_file retreat_file;
  parameter_names ← all_parameters tr;
  let ndim := length parameter_names in
  Returned {| maxSteps := maxSteps; subIter := subIter;
              xdata := xdata; ydata := ydata; times := times; tr := tr;
              parameter_names := parameter_names;
              ndim := ndim; nwalkers := ndim * 4 |}.

(** [sampler.get_autocorr_time(tol=0)] after [it] iterations. *)
Definition get_autocorr_time (ndim it : nat) : list F :=
  map (autocorr_time_of it) (seq 0 ndim).

(** [np.all(tau * 50 < iteration)]. *)
Definition long_enough (tau : list F) (it : nat) : bool :=
  all_lt (map (λ t, fmul t (lit 50)) tau)
         (lit (inject_Z (Z.of_nat it))).

(** [np.all(np.abs(old_tau - tau) / tau < 0.01)]. While [old_tau] is
    [np.inf] the difference is infinite, so the quotient is [+inf] for
    an estimate above zero and [-inf] for one below: the comparison then
    holds exactly for the negative estimates. *)
Definition stable (old : OldTau F) (tau : list F) : option bool :=
  match old with
  | Inf => Some (all_lt tau (lit 0))
  | Arr old =>
      d ← broadcast2 fsub old tau;
      q ← broadcast2 fdiv (map fabs d) tau;
      Some (all_lt q (lit 0.01))
  end.

(** The body of the sampling loop, for the [steps] iterations that the
    sampler still has to yield. Writing [autocorr] past its end raises
    [IndexError]. *)
Fixpoint sample_loop (ndim subIter steps : nat) (s : LoopState F)
    : option (LoopState F) :=
  match steps with
  | 0 => Some s
  | S steps' =>
      let it := S (iteration s) in
      if decide (it mod subIter ≠ 0) then
        sample_loop ndim subIter steps'
          {| iteration := it; index := index s; autocorr := autocorr s;
             old_tau := old_tau s; converged := converged s |}
      else
        let tau := get_autocorr_time ndim it in
        if decide (index s < length (autocorr s)) then
          let autocorr' := <[index s := fmean tau]> (autocorr s) in
          let index' := S (index s) in
          let conv_a := long_enough tau it in
          conv_b ← stable (old_tau s) tau;
          if conv_a && conv_b then
            Some {| iteration := it; index := index'; autocorr := autocorr';
                    old_tau := old_tau s; converged := true |}
          else
            sample_loop ndim subIter steps'
              {| iteration := it; index := index'; autocorr := autocorr';
                 old_tau := Arr tau; converged := false |}
        else None
  end.

(** The sampling loop of [MCMC.__init__] with its initialisation;
    [int(maxSteps/subIter)] divides by zero when [subIter] is zero. *)
Definition sampling (self : MCMC F) : option (LoopState F) :=
  if decide (subIter self = 0) then None
  else
    sample_loop (ndim self) (subIter self) (maxSteps self)
      {| iteration := 0; index := 0;
         autocorr := replicate (maxSteps self / subIter self) (lit 0);
         old_tau := Inf; converged := false |}.
End Estimator.

(** ** Definitions used to state the properties *)

Section Statements.
Context {F : Type} `{Num F} `{Special F} `{Scipy F} `{Submodels F}.

(** The trajectory point matched to one data point: the body of the loop
    of [get_nearest_points] without the two array writes. *)
Definition nearest_pick (dist_func : DistFunc) (x_model y_model : list F)
    (d : F * F) : option (F * F) :=
  dist ← dist_func x_model d.1 y_model d.2;
  ind ← argmin dist;
  xm ← x_model !! ind;
  ym ← y_model !! ind;
  Some (xm, ym).

(** The squared Euclidean distance between two points. *)
Definition sq_dist (x y x' y' : F) : F :=
  fadd (fpow2 (fsub x x')) (fpow2 (fsub y y')).

(** The Gaussian log-likelihood as the specification writes it: minus
    half the sum, over the [N] data points, of the squared residuals
    over the variances, minus half of [N] times the logarithm of the
    product of the variances. *)
Definition gaussian_lnlikelihood (x_data y_data x_nearest y_nearest : list F)
    (xvar yvar : F) : F :=
  let N := length x_data in
  let term (i : nat) : F :=
    fadd (fdiv (fpow2 (fsub (nth i x_data (lit 0)) (nth i x_nearest (lit 0)))) xvar)
         (fdiv (fpow2 (fsub (nth i y_data (lit 0)) (nth i y_nearest (lit 0)))) yvar) in
  fsub (fmul (lit (-0.5)) (fsum (map term (seq 0 N))))
       (fmul (fmul (lit 0.5) (lit (inject_Z (Z.of_nat N))))
             (flog (fmul xvar yvar))).
End Statements.

Section EstimatorStatements.
Context {F : Type} `{Num F} `{Special F} `{Scipy F} `{Submodels F}.
Context `{Sampler F}.

(** The three splines of a model are current when they are the ones
    [compute_model_splines] builds from the arrays the model holds now. *)
Definition splines_current (self : Trough F) : Prop :=
  lag_model_t_spline self = Some (IUS (ins_times self) (lag_model_t self)) ∧
  retreat_model_t_spline self =
    Some (IUS (ins_times self) (retreat_model_t self)) ∧
  int_retreat_model_t_spline self =
    Some (Antiderivative (IUS (ins_times self) (retreat_model_t self))).

(** Condition (a) of the convergence test after [it] iterations: the
    iteration count exceeds fifty times the autocorrelation time of
    every parameter. *)
Definition exceeds_50_tau (ndim it : nat) : Prop :=
  ∀ p, p < ndim →
    fltb (fmul (autocorr_time_of it p) (lit 50))
         (lit (inject_Z (Z.of_nat it))) = true.

(** Condition (b) at the [k]-th check, after [k * subIter] iterations:
    for every parameter the estimate differs from the one of the
    previous check by less than one percent of the new estimate. The
    first check has no previous one: the source compares with [np.inf],
    and the relative change, infinite in size with the sign of the
    estimate, is below one percent exactly when the estimate is
    negative. *)
Definition changed_below_1pct (ndim subIter k : nat) : Prop :=
  ∀ p, p < ndim →
    let tau := autocorr_time_of (k * subIter) p in
    match k with
    | 0 | 1 => fltb tau (lit 0) = true
    | S k' =>
        let old := autocorr_time_of (k' * subIter) p in
        fltb (fdiv (fabs (fsub old tau)) tau) (lit 0.01) = true
    end.

(** Condition (b) as the specification words it: the [k]-th check has
    a previous check, and for every parameter the estimate has changed
    by less than one percent relative to the estimate of that previous
    check. *)
Definition changed_less_than_1pct (ndim subIter k : nat) : Prop :=
  2 ≤ k ∧
  ∀ p, p < ndim →
    let tau := autocorr_time_of (k * subIter) p in
    let old := autocorr_time_of ((k - 1) * subIter) p in
    fltb (fabs (fsub tau old)) (fmul (lit 0.01) (fabs old)) = true.

(** Both conditions hold at the [k]-th check. *)
Definition check_converges (ndim subIter k : nat) : Prop :=
  exceeds_50_tau ndim (k * subIter) ∧ changed_below_1pct ndim subIter k.

(** [old_tau] as the [k]-th check finds it. *)
Definition previous_tau (ndim subIter k : nat) : OldTau F :=
  match k with
  | 0 | 1 => Inf
  | S k' => Arr (get_autocorr_time ndim (k' * subIter))
  end.

(** The test of the [k]-th check as the loop computes it. *)
Definition check_passes (ndim subIter k : nat) : option bool :=
  let tau := get_autocorr_time ndim (k * subIter) in
  conv_b ← stable (previous_tau ndim subIter k) tau;
  Some (long_enough tau (k * subIter) && conv_b).

(** The load as the specification words it: both columns are pixel
    positions, each converted to metres by its pixel-to-metre factor. *)
Definition pixels_to_meters (mpp : list F) (data_file : list (F * F))
    : option (list F * list F) :=
  match mpp with
  | [mx; my] => Some (map (λ x, fmul x mx) (map fst data_file),
                      map (λ y, fmul y my) (map snd data_file))
  | _ => None
  end.
End EstimatorStatements.

(** The lag axis as the specification words it: the consecutive
    integers 0, 1, ..., 15 with the first entry set to 0 and the last
    set to 20. *)
Definition lags_consecutive : list Z :=
  <[15 := 20%Z]> (<[0 := 0%Z]> (map Z.of_nat (seq 0 16))).

(** ** A concrete scenario on rational numbers *)

(** The scenario of section 8 of the specification: three observed
    points, a linear accumulation model with rate 1 and a constant lag
    of 5. The collaborators that are not among the sources get simple
    rational stand-ins, used only to run the model on concrete data. *)
Module Scenario.

Inductive AccumulationKind : Type := Linear.
Inductive LagModelKind : Type := ConstantLag.

(** Truncated series for the functions of [numpy]. *)
Definition approx_log (x : Q) : Q :=
  let z := ((x - 1) / (x + 1))%Q in
  Qred (2 * (z + z * z * z / 3 + z * z * z * z * z / 5))%Q.
Definition approx_sin (x : Q) : Q :=
  Qred (x - x * x * x / 6 + x * x * x * x * x / 120)%Q.
Definition approx_cos (x : Q) : Q :=
  Qred (1 - x * x / 2 + x * x * x * x / 24)%Q.

#[export] Instance Q_Special : Special Q := {|
  flog := approx_log;
  fsin := approx_sin;
  fcos := approx_cos;
  fpi := (355 # 113)%Q
|}.

(** The position of the first entry of an axis that satisfies [p]. *)
Fixpoint index_of (p : Q → bool) (axis : list Q) : option nat :=
  match axis with
  | [] => None
  | a :: rest => if p a then Some 0 else S <$> index_of p rest
  end.

(** A bivariate spline interpolates its table: at a node of the grid its
    value is the entry of the table. The stand-in is this look-up (and
    zero off the grid); the scenario evaluates it at nodes only. *)
Definition grid_ev (s : BivariateSpline Q) (lag t : Q) : Q :=
  match s with
  | RBS x y z =>
      default 0%Q
        (i ← index_of (Qeq_bool lag) (map inject_Z x);
         j ← index_of (Qeq_bool t) y;
         row ← z !! i;
         row !! j)
  end.

#[export] Instance Q_Scipy : Scipy Q := {| RBS_ev := grid_ev |}.

(** The interpolating spline of data constant in time is that constant,
    and its antiderivative is linear from the first knot on. The
    stand-in evaluates splines this way; the arrays of the scenario are
    constant in time. *)
Fixpoint first_knot (s : UnivariateSpline Q) : Q :=
  match s with
  | IUS x _ => default 0%Q (x !! 0)
  | Antiderivative s' => first_knot s'
  end.

Fixpoint spline_at (s : UnivariateSpline Q) (t : Q) : Q :=
  match s with
  | IUS _ y => default 0%Q (y !! 0)
  | Antiderivative s' => ((t - first_knot s') * spline_at s' t)%Q
  end.

(** A constant lag, a linear accumulation with its rate as only
    parameter, and the horizontal position that the accumulated retreat
    and the slope give. *)
Definition constant_lag (m : LagModel LagModelKind Q) (t : Q) : Q :=
  default 0%Q (lag_parameters m !! 0).

Definition linear_yt (m : AccumulationModel AccumulationKind Q) (t : Q) : Q :=
  let rate := default 0%Q (acc_parameters m !! 0) in
  Qred (- (rate * t))%Q.

Definition linear_xt (m : AccumulationModel AccumulationKind Q) (t : Q)
    (int_retreat : UnivariateSpline Q) (cot_angle csc_angle : Q) : Q :=
  Qred (- cot_angle * linear_yt m t
        + csc_angle * (spline_at int_retreat t - spline_at int_retreat 0))%Q.

#[export] Instance Q_Submodels : Submodels Q := {|
  AccKind := AccumulationKind;
  LagKind := LagModelKind;
  ACCUMULATION_MODEL_MAP := {[ "linear" := Linear ]};
  LAG_MODEL_MAP := {[ "constant" := ConstantLag ]};
  get_lag_at_t_1 := constant_lag;
  get_yt_1 := linear_yt;
  get_xt_1 := linear_xt
|}.

(** An autocorrelation time that is 1 for every parameter from the
    start. *)
#[export] Instance Q_Sampler : Sampler Q := {|
  autocorr_time_of := λ _ _, 1%Q
|}.

(** More sequences of estimates: one that grows with the chain, a
    tenth of the iteration count, one that is negative throughout, and
    one that is 1 at the first check and -100 from the second on. *)
Definition growing_sampler : Sampler Q := {|
  autocorr_time_of := λ it _, (inject_Z (Z.of_nat it) / 10)%Q
|}.

Definition negative_sampler : Sampler Q := {|
  autocorr_time_of := λ _ _, (-1)%Q
|}.

Definition jumping_sampler : Sampler Q := {|
  autocorr_time_of := λ it _, if Nat.leb it 10 then 1%Q else (-100)%Q
|}.

(** The parsed input files: three observed points (kilometres, metres);
    four insolation rows (value, time); the retreat table, one row per
    time and one column per lag, constant in time. *)
Definition data_file : list (Q * Q) :=
  [(0, 0); (0.1, -10); (0.2, -25)]%Q.

Definition insolation_file : list (Q * Q) :=
  [(400, 0); (410, -1); (420, -2); (430, -3)]%Q.

Definition retreat_row : list Q :=
  [16; 15; 14; 13; 12; 11; 10; 9; 8; 7; 6; 5; 4; 3; 2; 1]%Q.

Definition retreat_file : list (list Q) :=
  [retreat_row; retreat_row; retreat_row; retreat_row].

(** The value of an option that is known to hold one. *)
Definition from_some {A : Type} (o : option A)
    : match o with Some _ => A | None => unit end :=
  match o with Some a => a | None => tt end.

(** The trough model of the scenario, as the constructor of [trough.py]
    returns it. *)
Definition trough0 : Trough Q :=
  Eval vm_compute in
    from_some (Trough_init [1%Q] [5%Q] "linear" "constant" 1%Q 5.0%Q
                           insolation_file retreat_file).

(** An estimator object for the runs of the methods and of the loop:
    100 steps, a check every 10, the loaded data, the negated insolation
    times, the trough model of the scenario and three parameter names.
    The object is given attribute by attribute: the constructor of
    [mcmc.py] does not return one. *)
Definition mcmc0 : MCMC Q :=
  Eval vm_compute in
    {| maxSteps := 100; subIter := 10;
       xdata := (load_TMP data_file).1; ydata := (load_TMP data_file).2;
       times := map fneg (map snd insolation_file);
       tr := trough0;
       parameter_names := ["errorbar"; "acc_rate"; "lag_constant"];
       ndim := 3; nwalkers := 12 |}.

(** A named vector that moves the lag from 5 to 7. *)
Definition params1 : gmap string Q :=
  <["errorbar" := 1%Q]> (<["acc_rate" := 1%Q]> (<["lag_constant" := 7%Q]> ∅)).

(** The antiderivative spline of the trough model of the scenario. *)
Definition spline0 : UnivariateSpline Q :=
  Eval vm_compute in from_some (int_retreat_model_t_spline trough0).

(** The loop of the scenario on the sequence of estimates that jumps. *)
Definition jump_run_result : option (LoopState Q) :=
  Eval vm_compute in @sampling Q _ _ jumping_sampler mcmc0.

Definition jump_run : LoopState Q :=
  Eval vm_compute in from_some jump_run_result.

(** The trajectory of the estimator of the scenario and the points of
    it that [get_nearest_points] matches to the observed data. *)
Definition trajectory0 : list Q * list Q :=
  Eval vm_compute in from_some (get_trajectory (tr mcmc0) None).

Definition nearest0 : list Q * list Q :=
  Eval vm_compute in
    from_some (get_nearest_points (tr mcmc0) (xdata mcmc0) (ydata mcmc0) None).

(** A named vector with a negative errorbar, and one whose lag is
    outside the table. *)
Definition params_negative : gmap string Q :=
  <["errorbar" := (-1)%Q]> (<["acc_rate" := 1%Q]> (<["lag_constant" := 7%Q]> ∅)).

Definition params_lag_high : gmap string Q :=
  <["errorbar" := 1%Q]> (<["acc_rate" := 1%Q]> (<["lag_constant" := 21%Q]> ∅)).

End Scenario.

(** ** Sequences of calls *)

Section Calls.
Context {F : Type} `{Num F} `{Special F} `{Scipy F} `{Submodels F}.

(** The models that calls of [set_model] and [compute_model_splines], in
    any number and order, lead to from a model [init]. *)
Inductive reachable (init : Trough F) : Trough F → Prop :=
| reach_init : reachable init init
| reach_set_model (s s' : Trough F) (acc_params lag_params : list F) (eb : F) :
    reachable init s →
    set_model s acc_params lag_params eb = Some s' →
    reachable init s'
| reach_compute_model_splines (s : Trough F) :
    reachable init s →
    reachable init (compute_model_splines s).

(** The attributes of a model that no parameter enters: the slope and its
    two constants, the names, the pixel factors, the loaded tables, the
    lag axis, the two data splines, and what the submodels were built
    with besides their parameters. *)
Definition fixed_part (self : Trough F) :=
  (_angle self, _csc self, _cot self,
   acc_model_name self, lag_model_name self, meters_per_pixel self,
   insolation self, ins_times self, retreats self, lags self,
   ret_data_spline self, re2_data_spline self,
   acc_kind (accuModel self), acc_times (accuModel self),
   acc_insolation (accuModel self), lag_kind (lagModel self)).

(** The lag array and the retreat array of a model are the ones its
    current parameters give on its time axis. *)
Definition arrays_current (self : Trough F) : Prop :=
  lag_model_t self = get_lag_at_t (lagModel self) (ins_times self) ∧
  get_retreat_model_t self (lag_model_t self) (ins_times self)
    = Some (retreat_model_t self).

End Calls.

Section LoopRecord.
Context {F : Type} `{Num F} `{Sampler F}.

(** The array [autocorr] of [n] entries after [k] checks: the mean
    estimate of the first check, of the second, ..., of the [k]-th, then
    the zeros of [np.zeros]. *)
Definition autocorr_record (ndim subIter n k : nat) : list F :=
  map (λ j, fmean (get_autocorr_time ndim (S j * subIter))) (seq 0 k)
  ++ replicate (n - k) (lit 0).
End LoopRecord.

(** ** The matching loop of the plotting script ([scripts/figures_mcmc.py]) *)

Section FigureScript.
Context {F : Type} `{Num F}.

(** One turn of the loop that matches the observed points to the best
    trajectory: the nearest trajectory point and the time at its
    position are written at position [i] of the three arrays. *)
Definition figure_nearest_step (x_model y_model _times : list F)
    (out : option (list F * list F * list F)) (item : nat * (F * F))
    : option (list F * list F * list F) :=
  '(xnear, ynear, timenear) ← out;
  let '(i, (xdi, ydi)) := item in
  dist ← _L2_distance x_model xdi y_model ydi;
  ind ← argmin dist;
  xm ← x_model !! ind;
  ym ← y_model !! ind;
  tm ← _times !! ind;
  Some (<[i := xm]> xnear, <[i := ym]> ynear, <[i := tm]> timenear).

(** The loop with its three arrays of zeros; [_times] is the time array
    of the accumulation model. *)
Definition figure_nearest (x_model y_model _times xdata ydata : list F)
    : option (list F * list F * list F) :=
  let xnear := zeros_like xdata in
  let ynear := zeros_like ydata in
  let timenear := zeros_like xdata in
  foldl (figure_nearest_step x_model y_model _times)
        (Some (xnear, ynear, timenear))
        (enumerate (zip xdata ydata)).

(** The match of one observed point in the script: the point and its
    time. *)
Definition figure_pick (x_model y_model _times : list F) (d : F * F)
    : option (F * F * F) :=
  dist ← _L2_distance x_model d.1 y_model d.2;
  ind ← argmin dist;
  xm ← x_model !! ind;
  ym ← y_model !! ind;
  tm ← _times !! ind;
  Some (xm, ym, tm).
End FigureScript.

(** ** More runs of the scenario *)

Module ScenarioRuns.
Import Scenario.

(** The model of the scenario after [set_model([2], [7], 3)], the model
    that the constructor builds from these values, and the model of the
    scenario after [set_model] with its own values. *)
Definition trough_updated : Trough Q :=
  Eval vm_compute in from_some (set_model (tr mcmc0) [2%Q] [7%Q] 3%Q).

Definition trough_fresh : Trough Q :=
  Eval vm_compute in
    from_some (Trough_init [2%Q] [7%Q] "linear" "constant" 3%Q 5.0%Q
                           insolation_file retreat_file).

Definition trough_same : Trough Q :=
  Eval vm_compute in from_some (set_model (tr mcmc0) [1%Q] [5%Q] 1%Q).

(** Two ordinates for the three abscissas of the scenario, and the
    matches that [get_nearest_points] returns for them. *)
Definition ydata_short : list Q := [0; -10]%Q.

Definition nearest_short : list Q * list Q :=
  Eval vm_compute in
    from_some (get_nearest_points (tr mcmc0) (xdata mcmc0) ydata_short None).

(** A distance function of the caller's: the sum of the two absolute
    differences. *)
Definition L1_distance (x1 : list Q) (x2 : Q) (y1 : list Q) (y2 : Q)
    : option (list Q) :=
  broadcast2 fadd (map (λ x, fabs (fsub x x2)) x1)
                  (map (λ y, fabs (fsub y y2)) y1).

Definition nearest_L1 : list Q * list Q :=
  Eval vm_compute in
    from_some (get_nearest_points (tr mcmc0) (xdata mcmc0) (ydata mcmc0)
                                  (Some L1_distance)).

(** The matching loop of the plotting script on the trajectory of the
    scenario. *)
Definition figure0 : list Q * list Q * list Q :=
  Eval vm_compute in
    from_some (figure_nearest trajectory0.1 trajectory0.2
                 (ins_times (tr mcmc0)) (xdata mcmc0) (ydata mcmc0)).

End ScenarioRuns.

(** ** Facts about arrays *)

Lemma Q_fltb_lt (a b : Q) : fltb a b = true ↔ (a < b)%Q.
Proof.
  change (fltb a b) with (match Qcompare a b with Lt => true | _ => false end).
  rewrite Qlt_alt. destruct (Qcompare a b); split; congruence.
Qed.

Lemma Q_fltb_ge (a b : Q) : fltb a b = false ↔ (b <= a)%Q.
Proof.
  split.
  - intros Hf. apply Qnot_lt_le. intros Hlt. apply Q_fltb_lt in Hlt. congruence.
  - intros Hle. destruct (fltb a b) eqn:Hab; [|reflexivity].
    apply Q_fltb_lt in Hab. exfalso. exact (Qlt_not_le a b Hab Hle).
Qed.

#[export] Instance Q_NumOrder : NumOrder Q.
Proof.
  split.
  - intros a. apply Q_fltb_ge. apply Qle_refl.
  - intros a b c Hab Hbc. apply Q_fltb_lt. apply Q_fltb_lt in Hab, Hbc.
    exact (Qlt_trans a b c Hab Hbc).
  - intros a b c Hab Hbc. apply Q_fltb_ge. apply Q_fltb_ge in Hab, Hbc.
    exact (Qle_trans c b a Hbc Hab).
Qed.

Section ArrayFacts.
Context {F : Type} `{Num F}.

Lemma broadcast2_same_length (f : F → F → F) (a b : list F) :
  length a = length b → broadcast2 f a b = Some (zip_with f a b).
Proof. intros Hl. unfold broadcast2. rewrite decide_True by exact Hl. reflexivity. Qed.

Lemma zeros_like_length (a : list F) : length (zeros_like a) = length a.
Proof. unfold zeros_like. apply length_replicate. Qed.

Lemma argmin_is_Some (a : list F) : a ≠ [] → ∃ k, argmin a = Some k.
Proof. destruct a as [|v a']; [congruence|]. intros _. eexists. reflexivity. Qed.

(** The scan of [argmin] stays inside the array. *)
Lemma argmin_from_lt (a p : list F) (best : nat) (bestv : F) :
  best < length p →
  argmin_from best bestv (length p) a < length (p ++ a).
Proof.
  revert p best bestv.
  induction a as [|w a IH]; intros p best bestv Hb; cbn [argmin_from].
  - rewrite app_nil_r. exact Hb.
  - replace (p ++ w :: a) with ((p ++ [w]) ++ a) by (rewrite <- app_assoc; reflexivity).
    replace (S (length p)) with (length (p ++ [w])) by (rewrite length_app; cbn; lia).
    destruct (fltb w bestv); apply IH; rewrite length_app; cbn; lia.
Qed.

Context `{!NumOrder F}.

(** The scan of [argmin]: [p] is the part of the array already seen. *)
Lemma argmin_from_spec (a p : list F) (best : nat) (bestv : F) :
  p !! best = Some bestv →
  (∀ j v, p !! j = Some v → fltb v bestv = false) →
  (∀ j v, j < best → p !! j = Some v → fltb bestv v = true) →
  ∃ kv, (p ++ a) !! argmin_from best bestv (length p) a = Some kv ∧
    (∀ j v, (p ++ a) !! j = Some v → fltb v kv = false) ∧
    (∀ j v, j < argmin_from best bestv (length p) a →
            (p ++ a) !! j = Some v → fltb kv v = true).
Proof.
  revert p best bestv.
  induction a as [|w a IH]; intros p best bestv Hbest Hmin Hfirst; cbn [argmin_from].
  - rewrite app_nil_r. exists bestv. auto.
  - replace (p ++ w :: a) with ((p ++ [w]) ++ a) by (rewrite <- app_assoc; reflexivity).
    replace (S (length p)) with (length (p ++ [w])) by (rewrite length_app; cbn; lia).
    destruct (fltb w bestv) eqn:Hw.
    + apply IH.
      * rewrite lookup_app_r by lia.
        replace (length p - length p) with 0 by lia. reflexivity.
      * intros j v Hj. apply lookup_app_Some in Hj as [Hj|[Hge Hj]].
        -- destruct (fltb v w) eqn:Hvw; [|reflexivity].
           pose proof (Hmin j v Hj) as Hc.
           rewrite (fltb_trans v w bestv Hvw Hw) in Hc. discriminate.
        -- apply list_lookup_singleton_Some in Hj as [_ <-]. apply fltb_irrefl.
      * intros j v Hlt Hj. rewrite lookup_app_l in Hj by lia.
        destruct (fltb w v) eqn:Hwv; [reflexivity|].
        pose proof (fltb_negtrans w v bestv Hwv (Hmin j v Hj)) as Hc.
        rewrite Hw in Hc. discriminate.
    + apply IH.
      * rewrite lookup_app_l; [exact Hbest|]. apply lookup_lt_Some in Hbest. exact Hbest.
      * intros j v Hj. apply lookup_app_Some in Hj as [Hj|[Hge Hj]].
        -- eauto.
        -- apply list_lookup_singleton_Some in Hj as [_ <-]. exact Hw.
      * intros j v Hlt Hj. apply lookup_lt_Some in Hbest.
        rewrite lookup_app_l in Hj by lia. eauto.
Qed.

(** [np.argmin] returns a position of the array whose value no entry is
    below, and every earlier entry is strictly above it. *)
Lemma argmin_spec (a : list F) (k : nat) :
  argmin a = Some k →
  ∃ kv, a !! k = Some kv ∧
    (∀ j v, a !! j = Some v → fltb v kv = false) ∧
    (∀ j v, j < k → a !! j = Some v → fltb kv v = true).
Proof.
  destruct a as [|w a]; [discriminate|]. cbn [argmin]. intros [= <-].
  apply (argmin_from_spec a [w] 0 w).
  - reflexivity.
  - intros j v Hj. apply list_lookup_singleton_Some in Hj as [_ <-]. apply fltb_irrefl.
  - intros j v Hlt. lia.
Qed.
End ArrayFacts.

(** ** Facts about the trough model *)

Section NearestPoints.
Context {F : Type} `{Num F} `{Special F} `{Scipy F} `{Submodels F}.

Lemma nearest_step_None (df : DistFunc) (x_model y_model : list F)
    (l : list (nat * (F * F))) :
  foldl (nearest_step df x_model y_model) None l = None.
Proof. induction l as [|it l IH]; [reflexivity|]. cbn. exact IH. Qed.

Lemma nearest_step_pick (df : DistFunc) (x_model y_model x_out y_out : list F)
    (i : nat) (d : F * F) :
  nearest_step df x_model y_model (Some (x_out, y_out)) (i, d) =
  p ← nearest_pick df x_model y_model d;
  Some (<[i := p.1]> x_out, <[i := p.2]> y_out).
Proof.
  destruct d as [xdi ydi]. unfold nearest_step, nearest_pick. cbn.
  destruct (df x_model xdi y_model ydi) as [dist|]; [|reflexivity]. cbn.
  destruct (argmin dist) as [ind|]; [|reflexivity]. cbn.
  destruct (x_model !! ind) as [xm|]; [|reflexivity]. cbn.
  destruct (y_model !! ind) as [ym|]; reflexivity.
Qed.

(** The loop of [get_nearest_points] from position [s] on: it fills the
    positions [s], [s+1], ... of the two output arrays with the matches
    of the data points, in order, and fails when one match fails. *)
Lemma nearest_fold (df : DistFunc) (x_model y_model : list F)
    (l : list (F * F)) (s : nat) (x_out y_out : list F) :
  s + length l ≤ length x_out → s + length l ≤ length y_out →
  foldl (nearest_step df x_model y_model) (Some (x_out, y_out))
        (zip (seq s (length l)) l) =
  picks ← mapM (nearest_pick df x_model y_model) l;
  Some (take s x_out ++ picks.*1 ++ drop (s + length l) x_out,
        take s y_out ++ picks.*2 ++ drop (s + length l) y_out).
Proof.
  revert s x_out y_out.
  induction l as [|d l IH]; intros s x_out y_out Hx Hy.
  - cbn. rewrite Nat.add_0_r, !take_drop. reflexivity.
  - cbn [length seq zip zip_with foldl]. rewrite nearest_step_pick.
    cbn [mapM]. destruct (nearest_pick df x_model y_model d) as [[xm ym]|] eqn:Hp.
    + cbn [mbind option_bind fst snd]. cbn in Hx, Hy.
      rewrite IH by (rewrite length_insert; lia).
      destruct (mapM (nearest_pick df x_model y_model) l) as [picks|]; [|reflexivity].
      cbn. f_equal. f_equal.
      * rewrite (take_S_r _ _ xm) by (apply list_lookup_insert_eq; lia).
        rewrite take_insert_ge by lia.
        rewrite drop_insert_lt by lia.
        rewrite <- app_assoc. cbn.
        replace (S (s + length l)) with (s + S (length l)) by lia. reflexivity.
      * rewrite (take_S_r _ _ ym) by (apply list_lookup_insert_eq; lia).
        rewrite take_insert_ge by lia.
        rewrite drop_insert_lt by lia.
        rewrite <- app_assoc. cbn.
        replace (S (s + length l)) with (s + S (length l)) by lia. reflexivity.
    + cbn. apply nearest_step_None.
Qed.
End NearestPoints.

Section NearestPointsFacts.
Context {F : Type} `{Num F} `{Special F} `{Scipy F} `{Submodels F}.

(** The two coordinate arrays of a trajectory have one entry per time. *)
Lemma get_trajectory_length (self : Trough F) (times : option (list F))
    (x y : list F) :
  get_trajectory self times = Some (x, y) →
  length x = length y ∧
  length x = length (match times with None => ins_times self | Some t => t end).
Proof.
  unfold get_trajectory.
  destruct (int_retreat_model_t_spline self); destruct times as [t|];
    cbn; try discriminate;
    intros [= <- <-]; unfold get_xt, get_yt; rewrite !length_map; auto.
Qed.

(** [get_nearest_points] as one match per data point. *)
Lemma get_nearest_points_picks (self : Trough F) (x_data y_data : list F)
    (dist_func : option DistFunc) (x_model y_model : list F) :
  get_trajectory self None = Some (x_model, y_model) →
  get_nearest_points self x_data y_data dist_func =
  picks ← mapM (nearest_pick (default _L2_distance dist_func) x_model y_model)
               (zip x_data y_data);
  Some (picks.*1 ++ drop (length (zip x_data y_data)) (zeros_like x_data),
        picks.*2 ++ drop (length (zip x_data y_data)) (zeros_like y_data)).
Proof.
  intros Htraj. unfold get_nearest_points. rewrite Htraj. cbn [mbind option_bind].
  unfold enumerate.
  rewrite (nearest_fold _ x_model y_model (zip x_data y_data) 0).
  - reflexivity.
  - rewrite zeros_like_length, length_zip. lia.
  - rewrite zeros_like_length, length_zip. lia.
Qed.

Lemma L2_distance_lookup (x_model y_model : list F) (xdi ydi : F)
    (dist : list F) (j : nat) :
  length x_model = length y_model →
  _L2_distance x_model xdi y_model ydi = Some dist →
  dist !! j = (xj ← x_model !! j; yj ← y_model !! j; Some (sq_dist xj yj xdi ydi)).
Proof.
  intros Hl. unfold _L2_distance.
  rewrite broadcast2_same_length by (rewrite !length_map; exact Hl).
  intros [= <-]. rewrite lookup_zip_with, !list_lookup_fmap.
  destruct (x_model !! j); [|reflexivity]. cbn.
  destruct (y_model !! j); reflexivity.
Qed.

(** A match is a trajectory point, whatever the distance function. *)
Lemma nearest_pick_elem (df : DistFunc) (x_model y_model : list F)
    (d p : F * F) :
  nearest_pick df x_model y_model d = Some p →
  ∃ k, x_model !! k = Some p.1 ∧ y_model !! k = Some p.2.
Proof.
  unfold nearest_pick.
  destruct (df x_model d.1 y_model d.2) as [dist|]; [|discriminate]. cbn.
  destruct (argmin dist) as [ind|]; [|discriminate]. cbn.
  destruct (x_model !! ind) as [xm|] eqn:Hx; [|discriminate]. cbn.
  destruct (y_model !! ind) as [ym|] eqn:Hy; [|discriminate]. cbn.
  intros [= <-]. exists ind. auto.
Qed.

(** With the default distance a match exists for a non-empty trajectory. *)
Lemma nearest_pick_L2_total (x_model y_model : list F) (d : F * F) :
  length x_model = length y_model → x_model ≠ [] →
  ∃ p, nearest_pick _L2_distance x_model y_model d = Some p.
Proof.
  intros Hl Hne. unfold nearest_pick, _L2_distance.
  rewrite broadcast2_same_length by (rewrite !length_map; exact Hl).
  cbn [mbind option_bind].
  set (dist := zip_with fadd _ _).
  assert (Hlen : length dist = length x_model).
  { unfold dist. rewrite length_zip_with, !length_map. lia. }
  destruct dist as [|v dist'] eqn:Hd.
  { destruct x_model; [congruence|discriminate]. }
  cbn [argmin mbind option_bind].
  set (ind := argmin_from 0 v 1 dist').
  assert (Hind : ind < length x_model).
  { pose proof (argmin_from_lt dist' [v] 0 v ltac:(cbn; lia)) as Hlt.
    cbn in Hlt. fold ind in Hlt. cbn in Hlen. lia. }
  destruct (lookup_lt_is_Some_2 x_model ind Hind) as [xm ->].
  destruct (lookup_lt_is_Some_2 y_model ind ltac:(lia)) as [ym ->].
  cbn. eauto.
Qed.
End NearestPointsFacts.

Section Likelihood.
Context {F : Type} `{Num F} `{Special F} `{Scipy F} `{Submodels F}.

Lemma get_nearest_points_length (self : Trough F) (x_data y_data : list F)
    (dist_func : option DistFunc) (x_out y_out : list F) :
  length x_data = length y_data →
  get_nearest_points self x_data y_data dist_func = Some (x_out, y_out) →
  length x_out = length x_data ∧ length y_out = length y_data.
Proof.
  intros Hl Hg.
  destruct (get_trajectory self None) as [[x_model y_model]|] eqn:Htraj;
    [|unfold get_nearest_points in Hg; rewrite Htraj in Hg; discriminate].
  rewrite (get_nearest_points_picks _ _ _ _ _ _ Htraj) in Hg.
  destruct (mapM _ (zip x_data y_data)) as [picks|] eqn:Hm; [|discriminate].
  cbn in Hg. injection Hg as <- <-.
  apply length_mapM in Hm. rewrite length_zip in Hm.
  rewrite !length_app, !length_fmap, !length_drop, !zeros_like_length, length_zip.
  lia.
Qed.

(** Residual arrays written entry by entry. *)
Lemma residual_terms (g1 g2 : F → F) (a b c d : list F) (n : nat) :
  length a = n → length b = n → length c = n → length d = n →
  zip_with fadd (map g1 (zip_with fsub a b)) (map g2 (zip_with fsub c d)) =
  map (λ i, fadd (g1 (fsub (nth i a (lit 0)) (nth i b (lit 0))))
                 (g2 (fsub (nth i c (lit 0)) (nth i d (lit 0)))))
      (seq 0 n).
Proof.
  intros Ha Hb Hc Hd. apply list_eq. intros i.
  rewrite lookup_zip_with, !list_lookup_fmap, !lookup_zip_with.
  destruct (decide (i < n)) as [Hi|Hi].
  - rewrite lookup_seq_lt by exact Hi. cbn.
    destruct (lookup_lt_is_Some_2 a i ltac:(lia)) as [va Hva].
    destruct (lookup_lt_is_Some_2 b i ltac:(lia)) as [vb Hvb].
    destruct (lookup_lt_is_Some_2 c i ltac:(lia)) as [vc Hvc].
    destruct (lookup_lt_is_Some_2 d i ltac:(lia)) as [vd Hvd].
    rewrite !nth_lookup, Hva, Hvb, Hvc, Hvd. reflexivity.
  - rewrite lookup_seq_ge by lia.
    rewrite (lookup_ge_None_2 a i) by lia. reflexivity.
Qed.
(** Claim C4. For data arrays [x_data], [y_data] of equal length [N],
    with [(x_nearest, y_nearest)] the points that [get_nearest_points]
    returns and the two pixel-to-metre factors [mx], [my],
    [lnlikelihood] is [-0.5 * sum_i ((x_data_i - x_nearest_i)^2 / xvar +
    (y_data_i - y_nearest_i)^2 / yvar) - 0.5 * N * log(xvar * yvar)],
    where [xvar = (errorbar * mx)^2] and [yvar = (errorbar * my)^2]. *)
Theorem lnlikelihood_gaussian (self : Trough F)
    (x_data y_data x_nearest y_nearest : list F) (mx my : F) :
  length x_data = length y_data →
  meters_per_pixel self = [mx; my] →
  get_nearest_points self x_data y_data None = Some (x_nearest, y_nearest) →
  lnlikelihood self x_data y_data =
  Some (gaussian_lnlikelihood x_data y_data x_nearest y_nearest
          (fpow2 (fmul (errorbar self) mx))
          (fpow2 (fmul (errorbar self) my))).
Proof.
  intros Hl Hmpp Hg.
  destruct (get_nearest_points_length _ _ _ _ _ _ Hl Hg) as [Hx Hy].
  unfold lnlikelihood. rewrite Hg, Hmpp. cbn [mbind option_bind map].
  rewrite (broadcast2_same_length fsub x_data x_nearest) by lia.
  rewrite (broadcast2_same_length fsub y_data y_nearest) by lia.
  cbn [mbind option_bind].
  rewrite broadcast2_same_length
    by (rewrite !length_map, !length_zip_with; lia).
  cbn [mbind option_bind]. unfold gaussian_lnlikelihood, flen.
  rewrite (residual_terms _ _ x_data x_nearest y_data y_nearest (length x_data))
    by lia.
  reflexivity.
Qed.
End Likelihood.

Section NearestPointsClaims.
Context {F : Type} `{Num F} `{Special F} `{Scipy F} `{Submodels F}.

(** Claim C6. Called without times, [get_trajectory] evaluates the
    trajectory at the stored insolation times: the horizontal positions
    are those that [get_xt] of the accumulation model gives at
    [ins_times] with the antiderivative spline and the two slope
    constants, the vertical positions those that [get_yt] gives at
    [ins_times]; they are the two arrays of the call with the stored
    time axis passed explicitly. Times that are passed are never
    replaced, whatever [np.all] makes of them: the trajectory is then
    evaluated at those times. *)
Theorem get_trajectory_default_times (self : Trough F)
    (int_retreat : UnivariateSpline F) :
  int_retreat_model_t_spline self = Some int_retreat →
  get_trajectory self None
    = Some (get_xt (accuModel self) (ins_times self) int_retreat
                   (_cot self) (_csc self),
            get_yt (accuModel self) (ins_times self)) ∧
  get_trajectory self None = get_trajectory self (Some (ins_times self)) ∧
  ∀ times : list F,
    get_trajectory self (Some times)
    = Some (get_xt (accuModel self) times int_retreat (_cot self) (_csc self),
            get_yt (accuModel self) times).
Proof.
  intros Hspline. unfold get_trajectory. rewrite Hspline. cbn.
  split; [reflexivity|]. split; [reflexivity|]. intros times. reflexivity.
Qed.

(** Claim C10. For data arrays of equal length and a non-empty
    trajectory, [get_nearest_points] returns two arrays of the length of
    the data, and every returned pair is a point of the trajectory that
    [get_trajectory] gives for the current state: the pair at position
    [i] is the pair at some position [j] of the trajectory. *)
Theorem get_nearest_points_on_trajectory (self : Trough F)
    (x_data y_data x_model y_model : list F) :
  length x_data = length y_data →
  get_trajectory self None = Some (x_model, y_model) →
  x_model ≠ [] →
  ∃ x_out y_out,
    get_nearest_points self x_data y_data None = Some (x_out, y_out) ∧
    length x_out = length x_data ∧ length y_out = length y_data ∧
    ∀ i, i < length x_data →
      ∃ j xj yj, x_out !! i = Some xj ∧ y_out !! i = Some yj ∧
                 x_model !! j = Some xj ∧ y_model !! j = Some yj.
Proof.
  intros Hl Htraj Hne.
  destruct (get_trajectory_length _ _ _ _ Htraj) as [Hxy _].
  rewrite (get_nearest_points_picks _ _ _ _ _ _ Htraj). cbn [default].
  destruct (mapM (nearest_pick _L2_distance x_model y_model) (zip x_data y_data))
    as [picks|] eqn:Hm.
  - cbn [mbind option_bind]. do 2 eexists. split; [reflexivity|].
    pose proof (length_mapM _ _ _ Hm) as Hlen. rewrite length_zip in Hlen.
    rewrite !length_app, !length_fmap, !length_drop, !zeros_like_length, length_zip.
    split; [lia|]. split; [lia|].
    intros i Hi. apply mapM_Some_1 in Hm.
    destruct (lookup_lt_is_Some_2 picks i ltac:(lia)) as [p Hp].
    destruct (Forall2_lookup_r _ _ _ _ _ Hm Hp) as (d & _ & Hpick).
    destruct (nearest_pick_elem _ _ _ _ _ Hpick) as (k & Hkx & Hky).
    exists k, p.1, p.2.
    rewrite !lookup_app_l by (rewrite length_fmap; lia).
    rewrite !list_lookup_fmap, Hp. auto.
  - exfalso. apply mapM_None_1 in Hm. apply Exists_exists in Hm as (d & _ & Hd).
    destruct (nearest_pick_L2_total x_model y_model d Hxy Hne) as [p Hp]. congruence.
Qed.

Context `{!NumOrder F}.

(** With the default distance, a match is a trajectory point of least
    squared distance to the data point, the first such in trajectory
    order. *)
Lemma nearest_pick_L2_spec (x_model y_model : list F) (xdi ydi : F) (p : F * F) :
  length x_model = length y_model →
  nearest_pick _L2_distance x_model y_model (xdi, ydi) = Some p →
  ∃ k, x_model !! k = Some p.1 ∧ y_model !! k = Some p.2 ∧
    (∀ j xj yj, x_model !! j = Some xj → y_model !! j = Some yj →
       fltb (sq_dist xj yj xdi ydi) (sq_dist p.1 p.2 xdi ydi) = false) ∧
    (∀ j xj yj, j < k → x_model !! j = Some xj → y_model !! j = Some yj →
       fltb (sq_dist p.1 p.2 xdi ydi) (sq_dist xj yj xdi ydi) = true).
Proof.
  intros Hl. unfold nearest_pick. cbn [fst snd].
  destruct (_L2_distance x_model xdi y_model ydi) as [dist|] eqn:Hd; [|discriminate].
  cbn [mbind option_bind].
  destruct (argmin dist) as [ind|] eqn:Ha; [|discriminate]. cbn [mbind option_bind].
  destruct (x_model !! ind) as [xm|] eqn:Hx; [|discriminate]. cbn [mbind option_bind].
  destruct (y_model !! ind) as [ym|] eqn:Hy; [|discriminate]. cbn [mbind option_bind].
  intros [= <-]. cbn [fst snd]. exists ind.
  destruct (argmin_spec dist ind Ha) as (kv & Hkv & Hmin & Hfirst).
  rewrite (L2_distance_lookup _ _ _ _ _ ind Hl Hd), Hx, Hy in Hkv.
  cbn in Hkv. injection Hkv as <-.
  repeat split; [exact Hx|exact Hy| |].
  - intros j xj yj Hxj Hyj. apply (Hmin j).
    rewrite (L2_distance_lookup _ _ _ _ _ j Hl Hd), Hxj, Hyj. reflexivity.
  - intros j xj yj Hlt Hxj Hyj. apply (Hfirst j); [exact Hlt|].
    rewrite (L2_distance_lookup _ _ _ _ _ j Hl Hd), Hxj, Hyj. reflexivity.
Qed.

(** Claim C5. For every data point given to [get_nearest_points] (with
    the default distance), the returned pair is a point of the current
    trajectory whose squared Euclidean distance to the data point no
    trajectory point undercuts, and every trajectory point before it is
    strictly farther: among the points that attain the minimum it is the
    one of smallest index. *)
Theorem get_nearest_points_minimal (self : Trough F)
    (x_data y_data x_model y_model : list F) :
  get_trajectory self None = Some (x_model, y_model) →
  x_model ≠ [] →
  ∃ x_out y_out,
    get_nearest_points self x_data y_data None = Some (x_out, y_out) ∧
    ∀ i xdi ydi, x_data !! i = Some xdi → y_data !! i = Some ydi →
      ∃ k xk yk,
        x_out !! i = Some xk ∧ y_out !! i = Some yk ∧
        x_model !! k = Some xk ∧ y_model !! k = Some yk ∧
        (∀ j xj yj, x_model !! j = Some xj → y_model !! j = Some yj →
           fltb (sq_dist xj yj xdi ydi) (sq_dist xk yk xdi ydi) = false) ∧
        (∀ j xj yj, j < k → x_model !! j = Some xj → y_model !! j = Some yj →
           fltb (sq_dist xk yk xdi ydi) (sq_dist xj yj xdi ydi) = true).
Proof.
  intros Htraj Hne.
  destruct (get_trajectory_length _ _ _ _ Htraj) as [Hxy _].
  rewrite (get_nearest_points_picks _ _ _ _ _ _ Htraj). cbn [default].
  destruct (mapM (nearest_pick _L2_distance x_model y_model) (zip x_data y_data))
    as [picks|] eqn:Hm.
  - cbn [mbind option_bind]. do 2 eexists. split; [reflexivity|].
    intros i xdi ydi Hxi Hyi. apply mapM_Some_1 in Hm.
    assert (Hz : zip x_data y_data !! i = Some (xdi, ydi)).
    { rewrite lookup_zip_with, Hxi, Hyi. reflexivity. }
    destruct (Forall2_lookup_l _ _ _ _ _ Hm Hz) as (p & Hp & Hpick).
    destruct (nearest_pick_L2_spec _ _ _ _ _ Hxy Hpick)
      as (k & Hkx & Hky & Hmin & Hfirst).
    exists k, p.1, p.2.
    pose proof (lookup_lt_Some _ _ _ Hp) as Hlt.
    rewrite !lookup_app_l by (rewrite length_fmap; exact Hlt).
    rewrite !list_lookup_fmap, Hp. auto 10.
  - exfalso. apply mapM_None_1 in Hm. apply Exists_exists in Hm as (d & _ & Hd).
    destruct (nearest_pick_L2_total x_model y_model d Hxy Hne) as [p Hp]. congruence.
Qed.
End NearestPointsClaims.

(** ** Facts about the estimator *)

Section LikelihoodContract.
Context {F : Type} `{Num F} `{Special F} `{Scipy F} `{Submodels F}.

(** [set_model] always returns: the lag array it evaluates the retreat
    spline at has one entry per stored time. It overwrites the errorbar,
    the two parameter vectors and the two derived arrays, and keeps the
    time axis, the retreat spline and the three model splines. *)
Lemma set_model_effect (self : Trough F) (acc_params lag_params : list F)
    (new_errorbar : F) :
  ∃ tr', set_model self acc_params lag_params new_errorbar = Some tr' ∧
    errorbar tr' = new_errorbar ∧
    accuModel tr' = acc_set_parameters (accuModel self) acc_params ∧
    lagModel tr' = lag_set_parameters (lagModel self) lag_params ∧
    lag_model_t tr' = get_lag_at_t (lagModel tr') (ins_times self) ∧
    get_retreat_model_t self (lag_model_t tr') (ins_times self)
      = Some (retreat_model_t tr') ∧
    ins_times tr' = ins_times self ∧
    lag_model_t_spline tr' = lag_model_t_spline self ∧
    retreat_model_t_spline tr' = retreat_model_t_spline self ∧
    int_retreat_model_t_spline tr' = int_retreat_model_t_spline self.
Proof.
  unfold set_model.
  destruct (get_retreat_model_t self
              (get_lag_at_t (lag_set_parameters (lagModel self) lag_params)
                 (ins_times self)) (ins_times self)) as [r|] eqn:Hr.
  - cbn [mbind option_bind]. eexists. split; [reflexivity|]. cbn.
    repeat split; try reflexivity. exact Hr.
  - exfalso. unfold get_retreat_model_t in Hr.
    rewrite broadcast2_same_length in Hr; [discriminate|].
    unfold get_lag_at_t. apply length_map.
Qed.

(** A call of [set_model] with one argument raises, whatever the
    argument is: two of the three parameters stay unbound. *)
Lemma call_set_model_one_argument (self : Trough F) (v : PyValue F) :
  call_set_model self [v] = Raised TypeError.
Proof. destruct v; reflexivity. Qed.

(** [ln_likelihood], case by case. *)
Lemma ln_likelihood_cases (self : MCMC F) (params : gmap string F) :
  ln_likelihood self params =
  match params !! "errorbar" with
  | None => (Raised KeyError, self)
  | Some errorbar =>
      if fltb errorbar (lit 0) then (Returned sentinel, self)
      else (Raised TypeError, self)
  end.
Proof.
  unfold ln_likelihood. destruct (params !! "errorbar") as [eb|]; [|reflexivity].
  destruct (fltb eb (lit 0)); [reflexivity|].
  rewrite call_set_model_one_argument. reflexivity.
Qed.


(** Claim C2, what the code does. How a call of [ln_likelihood] ends is
    decided by the errorbar of the vector alone: without one the call
    raises [KeyError]; with a negative one it returns the sentinel
    [-1e99]; with any other it raises [TypeError], whether the lag that
    the vector names stays within [0, 20] or leaves it. No call returns
    the [lnlikelihood] of the model. *)
Theorem ln_likelihood_outcome (self : MCMC F) (params : gmap string F) :
  (ln_likelihood self params).1 =
  match params !! "errorbar" with
  | None => Raised KeyError
  | Some errorbar =>
      if fltb errorbar (lit 0) then Returned sentinel else Raised TypeError
  end.
Proof.
  rewrite ln_likelihood_cases.
  destruct (params !! "errorbar") as [eb|]; [destruct (fltb eb (lit 0))|];
    reflexivity.
Qed.

End LikelihoodContract.

Section Setup.
Context {F : Type} `{Num F} `{Special F} `{Scipy F} `{Submodels F}.

Lemma make_lags_value :
  make_lags = Some [0; 2; 3; 4; 5; 6; 7; 8; 9; 10; 11; 12; 13; 14; 15; 20]%Z.
Proof. reflexivity. Qed.

(** The constructor returns a model only when both names are in the
    registries; this opens the proofs about what it returns. *)
Ltac Trough_init_cases acc_name lag_name :=
  unfold Trough_init; rewrite make_lags_value; cbn [mbind option_bind];
  destruct (ACCUMULATION_MODEL_MAP !! acc_name) as [?acc_k|]; [|discriminate];
  cbn [mbind option_bind];
  destruct (LAG_MODEL_MAP !! lag_name) as [?lag_k|]; [|discriminate];
  cbn [mbind option_bind];
  destruct (broadcast2 _ _ _) as [?r|]; [|discriminate];
  cbn [mbind option_bind]; intros [= <-].

(** Claim C7, amended. The constructor builds a fixed lag axis of 16
    values: the integers 1, 2, ..., 16 with the first lowered by one to
    0 and the last replaced by 20, that is 0, 2, 3, ..., 15, 20. The
    axis starts at 0, ends at 20, and is the row axis of the
    two-dimensional retreat spline and of its squared variant. *)
Theorem Trough_init_lag_axis (acc_params lag_params : list F)
    (acc_name lag_name : string) (eb angle : F)
    (insolation_file : list (F * F)) (retreat_file : list (list F))
    (self : Trough F) :
  Trough_init acc_params lag_params acc_name lag_name eb angle
              insolation_file retreat_file = Some self →
  lags self = [0; 2; 3; 4; 5; 6; 7; 8; 9; 10; 11; 12; 13; 14; 15; 20]%Z ∧
  length (lags self) = 16 ∧
  head (lags self) = Some 0%Z ∧ last (lags self) = Some 20%Z ∧
  ret_data_spline self = RBS (lags self) (ins_times self) (retreats self) ∧
  re2_data_spline self =
    RBS (lags self) (ins_times self) (map (map fpow2) (retreats self)).
Proof.
  Trough_init_cases acc_name lag_name. cbn. repeat split; reflexivity.
Qed.

(** The constructor leaves the splines current. *)
Lemma Trough_init_splines_current (acc_params lag_params : list F)
    (acc_name lag_name : string) (eb angle : F)
    (insolation_file : list (F * F)) (retreat_file : list (list F))
    (self : Trough F) :
  Trough_init acc_params lag_params acc_name lag_name eb angle
              insolation_file retreat_file = Some self →
  splines_current self.
Proof.
  Trough_init_cases acc_name lag_name. unfold splines_current. cbn. auto.
Qed.

(** The constructor of the estimator raises for every argument list:
    the call of line 49 hands the list [acc_params] to the constructor
    of the trough model in the position of [acc_model_name], and a list
    is no key of the registry. *)
Lemma MCMC_init_raises (maxSteps subIter : nat) (acc_name lag_name : string)
    (acc_params lag_params : list F) (eb angle : F)
    (data_file insolation_file : list (F * F)) (retreat_file : list (list F)) :
  MCMC_init maxSteps subIter acc_name lag_name acc_params lag_params eb angle
            data_file insolation_file retreat_file = Raised TypeError.
Proof. reflexivity. Qed.

(** Claim C8, amended. On load the first column of the observed
    trajectory file is multiplied by 1000 (kilometres to metres) and the
    second column is kept as read, entry by entry, with no pixel factor
    applied; and no call of [ln_likelihood] changes the two arrays of an
    estimator that holds them. *)
Theorem load_TMP_kilometres_to_metres (data_file : list (F * F)) :
  2 ≤ length data_file →
  length (load_TMP data_file).1 = length data_file ∧
  length (load_TMP data_file).2 = length data_file ∧
  (∀ i x y, data_file !! i = Some (x, y) →
     (load_TMP data_file).1 !! i = Some (fmul x (lit 1000)) ∧
     (load_TMP data_file).2 !! i = Some y) ∧
  ∀ (self : MCMC F) (params : gmap string F),
    xdata self = (load_TMP data_file).1 →
    ydata self = (load_TMP data_file).2 →
    xdata (ln_likelihood self params).2 = (load_TMP data_file).1 ∧
    ydata (ln_likelihood self params).2 = (load_TMP data_file).2.
Proof.
  intros _. unfold load_TMP. cbn [fst snd].
  rewrite !length_map. split; [reflexivity|]. split; [reflexivity|]. split.
  - intros i x y Hi. rewrite !list_lookup_fmap, Hi. auto.
  - intros self params Hx Hy. rewrite ln_likelihood_cases.
    destruct (params !! "errorbar") as [eb|]; [destruct (fltb eb (lit 0))|];
      auto.
Qed.
End Setup.

Section SamplingLoop.
Context {F : Type} `{Num F} `{Sampler F}.

Lemma all_lt_seq (g : nat → F) (n : nat) (c : F) :
  all_lt (map g (seq 0 n)) c = true ↔ ∀ p, p < n → fltb (g p) c = true.
Proof.
  unfold all_lt. rewrite forallb_forall. split.
  - intros Hall p Hp. apply Hall. apply in_map. apply in_seq. lia.
  - intros Hp v Hin. apply in_map_iff in Hin as (p & <- & Hin).
    apply in_seq in Hin. apply Hp. lia.
Qed.

Lemma zip_with_map_seq (f : F → F → F) (g0 g : nat → F) (s : list nat) :
  zip_with f (map g0 s) (map g s) = map (λ p, f (g0 p) (g p)) s.
Proof. induction s as [|p s IH]; cbn; [reflexivity|]. rewrite IH. reflexivity. Qed.

Lemma long_enough_iff (ndim it : nat) :
  long_enough (get_autocorr_time ndim it) it = true ↔ exceeds_50_tau ndim it.
Proof.
  unfold long_enough, get_autocorr_time, exceeds_50_tau.
  rewrite map_map. apply all_lt_seq.
Qed.

(** The stability test of a check never raises, and it holds exactly
    when condition (b) does. *)
Lemma stable_value (ndim subIter k : nat) :
  ∃ b, stable (previous_tau ndim subIter k)
              (get_autocorr_time ndim (k * subIter)) = Some b ∧
       (b = true ↔ changed_below_1pct ndim subIter k).
Proof.
  destruct k as [|[|k']].
  - eexists. split; [reflexivity|]. apply all_lt_seq.
  - eexists. split; [reflexivity|]. apply all_lt_seq.
  - cbn [previous_tau stable]. unfold get_autocorr_time.
    rewrite broadcast2_same_length by (rewrite !length_map; reflexivity).
    cbn [mbind option_bind].
    rewrite broadcast2_same_length
      by (rewrite !length_map, length_zip_with, !length_map; lia).
    cbn [mbind option_bind].
    eexists. split; [reflexivity|].
    rewrite zip_with_map_seq, map_map, zip_with_map_seq.
    apply all_lt_seq.
Qed.

Lemma check_passes_value (ndim subIter k : nat) :
  ∃ b, check_passes ndim subIter k = Some b ∧
       (b = true ↔ check_converges ndim subIter k).
Proof.
  destruct (stable_value ndim subIter k) as (b & Hb & Hiff).
  unfold check_passes. rewrite Hb. cbn [mbind option_bind].
  eexists. split; [reflexivity|].
  unfold check_converges. rewrite andb_true_iff, long_enough_iff, Hiff. tauto.
Qed.

Lemma check_passes_true (ndim subIter k : nat) :
  check_passes ndim subIter k = Some true ↔ check_converges ndim subIter k.
Proof.
  destruct (check_passes_value ndim subIter k) as (b & Hb & Hiff).
  rewrite Hb. rewrite <- Hiff. split; [intros [= ->]; reflexivity|intros ->; reflexivity].
Qed.

Lemma check_passes_false (ndim subIter k : nat) :
  check_passes ndim subIter k = Some false ↔ ¬ check_converges ndim subIter k.
Proof.
  destruct (check_passes_value ndim subIter k) as (b & Hb & Hiff).
  rewrite Hb. rewrite <- Hiff. destruct b; split; congruence.
Qed.

(** At the first check [old_tau] is still [np.inf]: the check cannot
    pass when some estimate is not negative. *)
Lemma first_check_fails (ndim subIter p : nat) :
  p < ndim → fltb (autocorr_time_of (1 * subIter) p) (lit 0) = false →
  ¬ check_converges ndim subIter 1.
Proof.
  intros Hp Hpos (_ & Hb). specialize (Hb p Hp). cbn zeta in Hb.
  rewrite Hpos in Hb. discriminate.
Qed.

(** The loop from a state in which [k] checks have been made, none of
    which passed: it returns, either at the first later check that
    passes or after the last iteration. *)
Lemma sample_loop_run (ndim subIter maxSteps : nat) :
  0 < subIter →
  ∀ steps s k,
    k * subIter ≤ iteration s → iteration s < S k * subIter →
    index s = k →
    length (autocorr s) = maxSteps / subIter →
    iteration s + steps = maxSteps →
    old_tau s = previous_tau ndim subIter (S k) →
    converged s = false →
    (∀ j, 1 ≤ j → j ≤ k → check_passes ndim subIter j = Some false) →
    ∃ s', sample_loop ndim subIter steps s = Some s' ∧
      ((converged s' = true ∧
        ∃ k', k < k' ∧ iteration s' = k' * subIter ∧
          iteration s' ≤ maxSteps ∧
          check_passes ndim subIter k' = Some true ∧
          ∀ j, 1 ≤ j → j < k' → check_passes ndim subIter j = Some false)
       ∨ (converged s' = false ∧ iteration s' = maxSteps ∧
          ∀ j, 1 ≤ j → j * subIter ≤ maxSteps →
               check_passes ndim subIter j = Some false)).
Proof.
  intros Hsub.
  induction steps as [|steps IH];
    intros s k Hlo Hhi Hidx Hlen Hsum Hold Hconv Hprev.
  - exists s. split; [reflexivity|]. right.
    split; [exact Hconv|]. split; [lia|].
    intros j Hj Hjm. apply Hprev; [exact Hj|]. nia.
  - cbn [sample_loop].
    destruct (decide (S (iteration s) mod subIter ≠ 0)) as [Hmod|Hmod].
    + apply (IH _ k); cbn; try assumption; try lia.
      destruct (decide (S (iteration s) = S k * subIter)) as [Heq|]; [|lia].
      exfalso. apply Hmod. rewrite Heq. apply Nat.Div0.mod_mul.
    + assert (Hzero : S (iteration s) mod subIter = 0)
        by (destruct (decide (S (iteration s) mod subIter = 0)); [assumption|tauto]).
      assert (Hit : S (iteration s) = S k * subIter).
      { apply Nat.Div0.div_exact in Hzero.
        set (q := S (iteration s) / subIter) in Hzero.
        rewrite (Nat.mul_comm subIter q) in Hzero.
        destruct (Nat.lt_trichotomy q (S k)) as [Hlt|[Heq|Hgt]].
        - assert (q * subIter ≤ k * subIter) by (apply Nat.mul_le_mono_r; lia). lia.
        - rewrite Heq in Hzero. exact Hzero.
        - assert (S (S k) * subIter ≤ q * subIter)
            by (apply Nat.mul_le_mono_r; lia).
          lia. }
      assert (Hroom : index s < length (autocorr s)).
      { rewrite Hidx, Hlen.
        apply (Nat.div_le_lower_bound maxSteps subIter (S k)); lia. }
      rewrite (decide_True _ _ Hroom).
      rewrite Hold, Hit.
      destruct (stable_value ndim subIter (S k)) as (b & Hb & _).
      rewrite Hb. cbn [mbind option_bind].
      assert (Hcp : check_passes ndim subIter (S k) =
                    Some (long_enough (get_autocorr_time ndim (S k * subIter))
                                      (S k * subIter) && b)).
      { unfold check_passes. rewrite Hb. reflexivity. }
      destruct (long_enough _ _ && b) eqn:Hc.
      * eexists. split; [reflexivity|]. left. cbn.
        split; [reflexivity|]. exists (S k).
        split; [lia|]. split; [reflexivity|]. split; [lia|].
        split; [exact Hcp|]. intros j Hj Hlt. apply Hprev; lia.
      * destruct (IH {| iteration := S k * subIter; index := S (index s);
                        autocorr := <[index s := fmean (get_autocorr_time ndim (S k * subIter))]> (autocorr s);
                        old_tau := Arr (get_autocorr_time ndim (S k * subIter));
                        converged := false |} (S k))
          as (s' & Hrun & Hres); cbn.
        -- lia.
        -- lia.
        -- lia.
        -- rewrite length_insert. exact Hlen.
        -- lia.
        -- reflexivity.
        -- reflexivity.
        -- intros j Hj Hle. destruct (decide (j = S k)) as [->|]; [exact Hcp|].
           apply Hprev; lia.
        -- exists s'. split; [exact Hrun|].
           destruct Hres as [(Hc1 & k' & Hk' & Hrest)|Hres]; [left|right; exact Hres].
           split; [exact Hc1|]. exists k'. split; [lia|exact Hrest].
Qed.
End SamplingLoop.

Section SamplingClaim.
Context {F : Type} `{Num F} `{Submodels F} `{Sampler F}.

(** Claim C3, amended. With a positive check interval the sampling
    loop returns. It declares convergence exactly when some periodic
    check, made after a multiple of [subIter] iterations within the
    budget, finds both (a) the iteration count above fifty times the
    autocorrelation time of every parameter and (b) for every parameter
    the quotient [|old_tau - tau| / tau] below 0.01, where [tau] is the
    estimate of this check and [old_tau] that of the previous check,
    [np.inf] at the first check: a change of less than one percent of
    the new estimate when that is positive, and any change at all when
    it is negative. When the loop declares convergence it has stopped at
    the first check at which both hold, not before; otherwise it has run
    all [maxSteps] iterations. *)
Theorem sampling_convergence (self : MCMC F) :
  0 < subIter self →
  ∃ s, sampling self = Some s ∧
    (converged s = true ↔
       ∃ k, 1 ≤ k ∧ k * subIter self ≤ maxSteps self ∧
            check_converges (ndim self) (subIter self) k) ∧
    (converged s = true →
       ∃ k, 1 ≤ k ∧ iteration s = k * subIter self ∧
            iteration s ≤ maxSteps self ∧
            check_converges (ndim self) (subIter self) k ∧
            ∀ j, 1 ≤ j → j < k →
                 ¬ check_converges (ndim self) (subIter self) j) ∧
    (converged s = false → iteration s = maxSteps self).
Proof.
  intros Hsub. unfold sampling.
  rewrite decide_False by lia.
  destruct (sample_loop_run (ndim self) (subIter self) (maxSteps self) Hsub
              (maxSteps self)
              {| iteration := 0; index := 0;
                 autocorr := replicate (maxSteps self / subIter self) (lit 0);
                 old_tau := Inf; converged := false |} 0)
    as (s' & Hrun & Hres); cbn; try reflexivity; try lia.
  - apply length_replicate.
  - exists s'. split; [exact Hrun|].
    destruct Hres as [(Hc & k' & Hk' & Hit & Hle & Hpass & Hfirst)
                     |(Hc & Hit & Hnone)].
    + split; [|split].
      * split; [|intros _; exact Hc]. intros _. exists k'.
        split; [lia|]. split; [lia|]. apply check_passes_true. exact Hpass.
      * intros _. exists k'. split; [lia|]. split; [exact Hit|].
        split; [exact Hle|]. split; [apply check_passes_true; exact Hpass|].
        intros j Hj Hlt. apply check_passes_false. apply Hfirst; assumption.
      * rewrite Hc. discriminate.
    + split; [|split].
      * split; [rewrite Hc; discriminate|].
        intros (k & Hk & Hkm & Hck). exfalso.
        apply (proj1 (check_passes_false _ _ _) (Hnone k Hk Hkm)). exact Hck.
      * rewrite Hc. discriminate.
      * intros _. exact Hit.
Qed.
End SamplingClaim.

(** ** The scenario *)

Import Scenario.

(** Runs on small inputs. *)

Example argmin_first_of_ties : argmin [3; 1; 2; 1]%Q = Some 1.
Proof. reflexivity. Qed.

Example argmin_empty : argmin ([] : list Q) = None.
Proof. reflexivity. Qed.

Example broadcast2_stretch : broadcast2 fadd [1]%Q [1; 2]%Q = Some [2; 3]%Q.
Proof. reflexivity. Qed.

Example broadcast2_mismatch : broadcast2 fadd [1; 2; 3]%Q [1; 2]%Q = None.
Proof. reflexivity. Qed.

Example transpose_2_by_3 :
  transpose [[1; 2; 3]; [4; 5; 6]] = [[1; 4]; [2; 5]; [3; 6]].
Proof. reflexivity. Qed.

Example L2_distance_3_4 :
  _L2_distance [0; 3]%Q 0%Q [0; 4]%Q 0%Q = Some [0; 25]%Q.
Proof. reflexivity. Qed.

Example load_TMP_scenario :
  load_TMP data_file = ([0; 100; 200]%Q, [0; -10; -25]%Q).
Proof. reflexivity. Qed.

Example nearest0_heights : nearest0.2 = [0; -1; -1]%Q.
Proof. reflexivity. Qed.

Example sentinel_for_negative_errorbar :
  ln_likelihood mcmc0 params_negative = (Returned sentinel, mcmc0).
Proof. vm_cast_no_check (eq_refl (Returned (sentinel (F:=Q)), mcmc0)). Qed.

Example TypeError_for_lag_7 :
  ln_likelihood mcmc0 params1 = (Raised TypeError, mcmc0).
Proof. vm_cast_no_check (eq_refl (@Raised Q TypeError, mcmc0)). Qed.

Example TypeError_for_lag_21 :
  ln_likelihood mcmc0 params_lag_high = (Raised TypeError, mcmc0).
Proof. vm_cast_no_check (eq_refl (@Raised Q TypeError, mcmc0)). Qed.

Example KeyError_for_empty_vector :
  ln_likelihood mcmc0 ∅ = (Raised KeyError, mcmc0).
Proof. vm_cast_no_check (eq_refl (@Raised Q KeyError, mcmc0)). Qed.

Example constructor_raises :
  MCMC_init 100 10 "linear" "constant" [1%Q] [5%Q] 1%Q 5.0%Q
            data_file insolation_file retreat_file = Raised TypeError.
Proof. reflexivity. Qed.

(** The constructor of the trough model, called with its arguments in
    the order of its own signature, returns the model of the scenario. *)
Example call_Trough_in_order :
  call_Trough [PyList [1%Q]; PyList [5%Q]; PyStr "linear"; PyStr "constant";
               PyFloat 1%Q; PyFloat 5.0%Q] insolation_file retreat_file
  = Returned trough0.
Proof. vm_cast_no_check (eq_refl (Returned trough0)). Qed.

(** [set_model] called with its three arguments updates the model. *)
Example call_set_model_three_arguments :
  call_set_model trough0 [PyList [1%Q]; PyList [7%Q]; PyFloat 1%Q]
  = of_option (set_model trough0 [1%Q] [7%Q] 1%Q).
Proof. reflexivity. Qed.

(** With an estimate of 1 throughout, the first check that passes is the
    one after 60 iterations: 50 times 1 is below 60, and the estimate
    has not changed since the check after 50. *)
Example sampling_stops_at_60 :
  (iteration <$> sampling mcmc0, converged <$> sampling mcmc0)
  = (Some 60, Some true).
Proof. vm_compute. reflexivity. Qed.

(** With an estimate that grows as fast as the chain no check passes,
    and the loop runs its 100 iterations. *)
Example sampling_exhausts_budget :
  (iteration <$> @sampling Q _ _ growing_sampler mcmc0,
   converged <$> @sampling Q _ _ growing_sampler mcmc0)
  = (Some 100, Some false).
Proof. vm_compute. reflexivity. Qed.

(** With negative estimates the comparison with [np.inf] holds, and the
    first check already passes. *)
Example sampling_negative_estimates :
  (iteration <$> @sampling Q _ _ negative_sampler mcmc0,
   converged <$> @sampling Q _ _ negative_sampler mcmc0)
  = (Some 10, Some true).
Proof. vm_compute. reflexivity. Qed.

Lemma trough0_init_value :
  Trough_init [1%Q] [5%Q] "linear" "constant" 1%Q 5.0%Q
              insolation_file retreat_file = Some (tr mcmc0).
Proof. vm_cast_no_check (eq_refl (Some (tr mcmc0))). Qed.

Lemma jump_run_value :
  @sampling Q _ _ jumping_sampler mcmc0 = Some jump_run.
Proof. vm_compute. reflexivity. Qed.

(** Claim C3 as stated fails. With an estimate of 1 at the first check
    and of -100 at the second, the loop declares convergence at the
    second check, after 20 iterations, although the estimates have not
    changed by less than one percent relative to the previous check:
    the change of 101 is not below one percent of the previous
    estimate, nor of the new one. *)
Lemma sampling_stops_on_a_jump :
  @sampling Q _ _ jumping_sampler mcmc0 = Some jump_run ∧
  converged jump_run = true ∧
  iteration jump_run = 2 * subIter mcmc0 ∧
  ¬ @changed_less_than_1pct Q _ jumping_sampler
      (ndim mcmc0) (subIter mcmc0) 2 ∧
  fltb (fabs (fsub (-100)%Q 1%Q)) (fmul (lit 0.01) (fabs (-100)%Q)) = false.
Proof.
  split; [exact jump_run_value|]. split; [reflexivity|]. split; [reflexivity|].
  split; [|reflexivity].
  intros (_ & Hb). specialize (Hb 0 ltac:(vm_compute; lia)).
  vm_compute in Hb. discriminate Hb.
Qed.

(** Claim C7 as stated fails: the lag axis is not the consecutive
    integers 0, ..., 15 with the two ends set to 0 and 20; its second
    entry is 2, not 1. *)
Lemma lags_not_consecutive : make_lags ≠ Some lags_consecutive.
Proof. vm_compute. discriminate. Qed.

(** Claim C8 as stated fails: the load is not a conversion of both
    columns from pixels to metres. For the three rows of the scenario,
    [(0, 0)], [(0.1, -10)] and [(0.2, -25)], it gives [0, 100, 200] and
    [0, -10, -25], not [0, 50, 100] and [0, -200, -500]. *)
Lemma load_TMP_not_pixels_to_meters :
  load_TMP data_file = ([0; 100; 200]%Q, [0; -10; -25]%Q) ∧
  pixels_to_meters [lit 500.0; lit 20.0] data_file
    = Some ([0; 50; 100]%Q, [0; -200; -500]%Q) ∧
  Some (load_TMP data_file) ≠ pixels_to_meters [lit 500.0; lit 20.0] data_file.
Proof.
  split; [reflexivity|]. split; [reflexivity|]. vm_compute. discriminate.
Qed.

(** ** The theorems at the scenario *)

Lemma trajectory0_value :
  get_trajectory (tr mcmc0) None = Some (trajectory0.1, trajectory0.2).
Proof. vm_compute. reflexivity. Qed.

Lemma nearest0_value :
  get_nearest_points (tr mcmc0) (xdata mcmc0) (ydata mcmc0) None
  = Some (nearest0.1, nearest0.2).
Proof. vm_compute. reflexivity. Qed.


(** Claim C6 at the scenario: the trough model holds its antiderivative
    spline. *)
Lemma get_trajectory_default_times_witness :
  int_retreat_model_t_spline (tr mcmc0) = Some spline0 ∧
  get_trajectory (tr mcmc0) None
    = Some (get_xt (accuModel (tr mcmc0)) (ins_times (tr mcmc0)) spline0
                   (_cot (tr mcmc0)) (_csc (tr mcmc0)),
            get_yt (accuModel (tr mcmc0)) (ins_times (tr mcmc0))) ∧
  get_trajectory (tr mcmc0) None
    = get_trajectory (tr mcmc0) (Some (ins_times (tr mcmc0))) ∧
  ∀ times : list Q,
    get_trajectory (tr mcmc0) (Some times)
    = Some (get_xt (accuModel (tr mcmc0)) times spline0
                   (_cot (tr mcmc0)) (_csc (tr mcmc0)),
            get_yt (accuModel (tr mcmc0)) times).
Proof.
  assert (Hspline : int_retreat_model_t_spline (tr mcmc0) = Some spline0)
    by reflexivity.
  split; [exact Hspline|].
  exact (get_trajectory_default_times (tr mcmc0) spline0 Hspline).
Defined.

(** Claim C3 at the scenario: a check every 10 of 100 iterations. *)
Lemma sampling_convergence_witness :
  0 < subIter mcmc0 ∧
  ∃ s, sampling mcmc0 = Some s ∧
    (converged s = true ↔
       ∃ k, 1 ≤ k ∧ k * subIter mcmc0 ≤ maxSteps mcmc0 ∧
            check_converges (ndim mcmc0) (subIter mcmc0) k) ∧
    (converged s = true →
       ∃ k, 1 ≤ k ∧ iteration s = k * subIter mcmc0 ∧
            iteration s ≤ maxSteps mcmc0 ∧
            check_converges (ndim mcmc0) (subIter mcmc0) k ∧
            ∀ j, 1 ≤ j → j < k →
                 ¬ check_converges (ndim mcmc0) (subIter mcmc0) j) ∧
    (converged s = false → iteration s = maxSteps mcmc0).
Proof.
  assert (Hpos : 0 < subIter mcmc0) by (vm_compute; lia).
  split; [exact Hpos|]. exact (sampling_convergence mcmc0 Hpos).
Defined.

(** Claim C4 at the scenario: three data points in each array. *)
Lemma lnlikelihood_gaussian_witness :
  length (xdata mcmc0) = length (ydata mcmc0) ∧
  meters_per_pixel (tr mcmc0) = [lit 500.0; lit 20.0] ∧
  get_nearest_points (tr mcmc0) (xdata mcmc0) (ydata mcmc0) None
    = Some (nearest0.1, nearest0.2) ∧
  lnlikelihood (tr mcmc0) (xdata mcmc0) (ydata mcmc0) =
  Some (gaussian_lnlikelihood (xdata mcmc0) (ydata mcmc0) nearest0.1 nearest0.2
          (fpow2 (fmul (errorbar (tr mcmc0)) (lit 500.0)))
          (fpow2 (fmul (errorbar (tr mcmc0)) (lit 20.0)))).
Proof.
  assert (Hlen : length (xdata mcmc0) = length (ydata mcmc0)) by reflexivity.
  assert (Hmpp : meters_per_pixel (tr mcmc0) = [lit 500.0; lit 20.0])
    by (vm_compute; reflexivity).
  split; [exact Hlen|]. split; [exact Hmpp|]. split; [exact nearest0_value|].
  exact (lnlikelihood_gaussian (tr mcmc0) (xdata mcmc0) (ydata mcmc0)
           nearest0.1 nearest0.2 (lit 500.0) (lit 20.0) Hlen Hmpp nearest0_value).
Defined.

(** Claim C5 at the scenario: the rational numbers are ordered, and the
    trajectory has four points. *)
Lemma get_nearest_points_minimal_witness :
  NumOrder Q ∧
  get_trajectory (tr mcmc0) None = Some (trajectory0.1, trajectory0.2) ∧
  trajectory0.1 ≠ [] ∧
  ∃ x_out y_out,
    get_nearest_points (tr mcmc0) (xdata mcmc0) (ydata mcmc0) None
      = Some (x_out, y_out) ∧
    ∀ i xdi ydi, xdata mcmc0 !! i = Some xdi → ydata mcmc0 !! i = Some ydi →
      ∃ k xk yk,
        x_out !! i = Some xk ∧ y_out !! i = Some yk ∧
        trajectory0.1 !! k = Some xk ∧ trajectory0.2 !! k = Some yk ∧
        (∀ j xj yj, trajectory0.1 !! j = Some xj → trajectory0.2 !! j = Some yj →
           fltb (sq_dist xj yj xdi ydi) (sq_dist xk yk xdi ydi) = false) ∧
        (∀ j xj yj, j < k →
           trajectory0.1 !! j = Some xj → trajectory0.2 !! j = Some yj →
           fltb (sq_dist xk yk xdi ydi) (sq_dist xj yj xdi ydi) = true).
Proof.
  assert (Hne : trajectory0.1 ≠ []) by (vm_compute; discriminate).
  split; [exact Q_NumOrder|]. split; [exact trajectory0_value|].
  split; [exact Hne|].
  exact (get_nearest_points_minimal (tr mcmc0) (xdata mcmc0) (ydata mcmc0)
           trajectory0.1 trajectory0.2 trajectory0_value Hne).
Defined.

(** Claim C10 at the scenario. *)
Lemma get_nearest_points_on_trajectory_witness :
  length (xdata mcmc0) = length (ydata mcmc0) ∧
  get_trajectory (tr mcmc0) None = Some (trajectory0.1, trajectory0.2) ∧
  trajectory0.1 ≠ [] ∧
  ∃ x_out y_out,
    get_nearest_points (tr mcmc0) (xdata mcmc0) (ydata mcmc0) None
      = Some (x_out, y_out) ∧
    length x_out = length (xdata mcmc0) ∧ length y_out = length (ydata mcmc0) ∧
    ∀ i, i < length (xdata mcmc0) →
      ∃ j xj yj, x_out !! i = Some xj ∧ y_out !! i = Some yj ∧
                 trajectory0.1 !! j = Some xj ∧ trajectory0.2 !! j = Some yj.
Proof.
  assert (Hlen : length (xdata mcmc0) = length (ydata mcmc0)) by reflexivity.
  assert (Hne : trajectory0.1 ≠ []) by (vm_compute; discriminate).
  split; [exact Hlen|]. split; [exact trajectory0_value|]. split; [exact Hne|].
  exact (get_nearest_points_on_trajectory (tr mcmc0) (xdata mcmc0) (ydata mcmc0)
           trajectory0.1 trajectory0.2 Hlen trajectory0_value Hne).
Defined.

(** Claim C7 at the scenario: the constructor returns the trough model
    of the scenario. *)
Lemma Trough_init_lag_axis_witness :
  Trough_init [1%Q] [5%Q] "linear" "constant" 1%Q 5.0%Q
              insolation_file retreat_file = Some (tr mcmc0) ∧
  lags (tr mcmc0) = [0; 2; 3; 4; 5; 6; 7; 8; 9; 10; 11; 12; 13; 14; 15; 20]%Z ∧
  length (lags (tr mcmc0)) = 16 ∧
  head (lags (tr mcmc0)) = Some 0%Z ∧ last (lags (tr mcmc0)) = Some 20%Z ∧
  ret_data_spline (tr mcmc0)
    = RBS (lags (tr mcmc0)) (ins_times (tr mcmc0)) (retreats (tr mcmc0)) ∧
  re2_data_spline (tr mcmc0)
    = RBS (lags (tr mcmc0)) (ins_times (tr mcmc0))
          (map (map fpow2) (retreats (tr mcmc0))).
Proof.
  split; [exact trough0_init_value|].
  exact (Trough_init_lag_axis [1%Q] [5%Q] "linear" "constant" 1%Q 5.0%Q
           insolation_file retreat_file (tr mcmc0) trough0_init_value).
Defined.

(** Claim C8 at the scenario: the observed trajectory has three rows. *)
Lemma load_TMP_kilometres_to_metres_witness :
  2 ≤ length data_file ∧
  length (load_TMP data_file).1 = length data_file ∧
  length (load_TMP data_file).2 = length data_file ∧
  (∀ i x y, data_file !! i = Some (x, y) →
     (load_TMP data_file).1 !! i = Some (fmul x (lit 1000)) ∧
     (load_TMP data_file).2 !! i = Some y) ∧
  ∀ (self : MCMC Q) (params : gmap string Q),
    xdata self = (load_TMP data_file).1 →
    ydata self = (load_TMP data_file).2 →
    xdata (ln_likelihood self params).2 = (load_TMP data_file).1 ∧
    ydata (ln_likelihood self params).2 = (load_TMP data_file).2.
Proof.
  assert (Hrows : 2 ≤ length data_file) by (cbn; lia).
  split; [exact Hrows|].
  exact (load_TMP_kilometres_to_metres (F:=Q) data_file Hrows).
Defined.

(** ** More facts about the trough model *)

(** Opens a proof about a model that the constructor has returned,
    keeping what the constructor computed as hypotheses. *)
Ltac Trough_init_inv acc_name lag_name :=
  unfold Trough_init; rewrite make_lags_value; cbn [mbind option_bind];
  destruct (ACCUMULATION_MODEL_MAP !! acc_name) as [?acc_k|] eqn:?Hacc_k;
    [|discriminate];
  cbn [mbind option_bind];
  destruct (LAG_MODEL_MAP !! lag_name) as [?lag_k|] eqn:?Hlag_k;
    [|discriminate];
  cbn [mbind option_bind];
  destruct (broadcast2 _ _ _) as [?r|] eqn:?Hretreat; [|discriminate];
  cbn [mbind option_bind]; intros [= <-].

Section TroughUpdates.
Context {F : Type} `{Num F} `{Special F} `{Scipy F} `{Submodels F}.

(** [set_model] leaves alone every attribute that no parameter enters. *)
Lemma set_model_fixed_part (self self' : Trough F)
    (acc_params lag_params : list F) (eb : F) :
  set_model self acc_params lag_params eb = Some self' →
  fixed_part self' = fixed_part self.
Proof.
  unfold set_model.
  destruct (get_retreat_model_t self _ _) as [r|]; [|discriminate].
  cbn [mbind option_bind]. intros [= <-]. reflexivity.
Qed.

Lemma fixed_part_ins_times (a b : Trough F) :
  fixed_part a = fixed_part b → ins_times a = ins_times b.
Proof. unfold fixed_part. intros Heq. by simplify_eq. Qed.

(** What a model holds once the constructor has returned it. *)
Lemma Trough_init_shape (acc_params lag_params : list F)
    (acc_name lag_name : string) (eb angle : F)
    (insolation_file : list (F * F)) (retreat_file : list (list F))
    (self : Trough F) :
  Trough_init acc_params lag_params acc_name lag_name eb angle
              insolation_file retreat_file = Some self →
  ins_times self = map fneg (map snd insolation_file) ∧
  meters_per_pixel self = [lit 500.0; lit 20.0] ∧
  errorbar self = eb ∧
  acc_parameters (accuModel self) = acc_params ∧
  lag_parameters (lagModel self) = lag_params ∧
  lag_model_t self = get_lag_at_t (lagModel self) (ins_times self) ∧
  get_retreat_model_t self (lag_model_t self) (ins_times self)
    = Some (retreat_model_t self) ∧
  is_Some (int_retreat_model_t_spline self).
Proof.
  Trough_init_inv acc_name lag_name. cbn.
  repeat split; try reflexivity; try (eexists; reflexivity).
  unfold get_retreat_model_t. cbn. assumption.
Qed.

(** Updating a constructed model and recomputing its splines gives the
    model that the constructor builds from the new parameters. *)
Lemma set_model_splines_of_init (acc_params lag_params acc' lag' : list F)
    (acc_name lag_name : string) (eb eb' angle : F)
    (insolation_file : list (F * F)) (retreat_file : list (list F))
    (self s1 : Trough F) :
  Trough_init acc_params lag_params acc_name lag_name eb angle
              insolation_file retreat_file = Some self →
  set_model self acc' lag' eb' = Some s1 →
  Trough_init acc' lag' acc_name lag_name eb' angle
              insolation_file retreat_file = Some (compute_model_splines s1).
Proof.
  intros Hinit Hset.
  unfold Trough_init in Hinit. rewrite make_lags_value in Hinit.
  cbn [mbind option_bind] in Hinit.
  destruct (ACCUMULATION_MODEL_MAP !! acc_name) as [acc_k|] eqn:Hacc_k;
    [|discriminate].
  destruct (LAG_MODEL_MAP !! lag_name) as [lag_k|] eqn:Hlag_k;
    [|discriminate].
  cbn [mbind option_bind] in Hinit.
  destruct (broadcast2 _ _ _) as [r|] eqn:Hr in Hinit; [|discriminate].
  cbn [mbind option_bind] in Hinit. injection Hinit as <-.
  unfold set_model, get_retreat_model_t, lag_set_parameters in Hset.
  cbn in Hset.
  unfold Trough_init. rewrite make_lags_value. cbn [mbind option_bind].
  rewrite Hacc_k, Hlag_k. cbn [mbind option_bind].
  destruct (broadcast2 _ _ _) as [r'|] eqn:Hr' in Hset; [|discriminate].
  cbn in Hset. injection Hset as <-.
  unfold get_lag_at_t. rewrite Hr'. cbn [mbind option_bind]. reflexivity.
Qed.

(** The invariant of the calls that update a model. *)
Lemma reachable_keeps (init s : Trough F) :
  arrays_current init → is_Some (int_retreat_model_t_spline init) →
  reachable init s →
  fixed_part s = fixed_part init ∧ arrays_current s ∧
  is_Some (int_retreat_model_t_spline s).
Proof.
  intros Harr Hspl Hreach.
  induction Hreach as [|s s' acc lag eb Hreach IH Hset|s Hreach IH].
  - auto.
  - destruct IH as (Hfix & _ & Hs).
    destruct (set_model_effect s acc lag eb)
      as (tr' & Hset' & _ & _ & _ & Hlag & Hret & Htimes & _ & _ & Hint).
    rewrite Hset in Hset'. injection Hset' as <-.
    pose proof (set_model_fixed_part _ _ _ _ _ Hset) as Hfix'.
    split; [congruence|]. split; [|rewrite Hint; exact Hs].
    split; [rewrite Htimes; exact Hlag|].
    rewrite Htimes. unfold get_retreat_model_t in *.
    replace (ret_data_spline s') with (ret_data_spline s); [exact Hret|].
    unfold fixed_part in Hfix'. by simplify_eq.
  - destruct IH as (Hfix & Harr' & _).
    split; [exact Hfix|]. split; [exact Harr'|]. cbn. eauto.
Qed.

(** Property X1. When the constructor has built a model, [set_model]
    has updated it, and the constructor also builds a model from the
    updated parameters and errorbar (same names, slope and files), that
    model is the updated one after [compute_model_splines]. *)
Theorem set_model_then_splines_is_init (acc_params lag_params acc' lag' : list F)
    (acc_name lag_name : string) (eb eb' angle : F)
    (insolation_file : list (F * F)) (retreat_file : list (list F))
    (self s1 fresh : Trough F) :
  Trough_init acc_params lag_params acc_name lag_name eb angle
              insolation_file retreat_file = Some self →
  set_model self acc' lag' eb' = Some s1 →
  Trough_init acc' lag' acc_name lag_name eb' angle
              insolation_file retreat_file = Some fresh →
  compute_model_splines s1 = fresh.
Proof.
  intros Hinit Hset Hfresh.
  rewrite (set_model_splines_of_init _ _ _ _ _ _ _ _ _ _ _ _ _ Hinit Hset)
    in Hfresh.
  congruence.
Qed.

(** Property X2. Round trip: [set_model] with the parameters and the
    errorbar that a model was constructed with, followed by
    [compute_model_splines], gives back the constructed model. *)
Theorem set_model_round_trip (acc_params lag_params : list F)
    (acc_name lag_name : string) (eb angle : F)
    (insolation_file : list (F * F)) (retreat_file : list (list F))
    (self s1 : Trough F) :
  Trough_init acc_params lag_params acc_name lag_name eb angle
              insolation_file retreat_file = Some self →
  set_model self acc_params lag_params eb = Some s1 →
  compute_model_splines s1 = self.
Proof.
  intros Hinit Hset.
  pose proof (set_model_splines_of_init _ _ _ _ _ _ _ _ _ _ _ _ _ Hinit Hset)
    as Hfresh.
  congruence.
Qed.

(** Property X3. Of two calls of [set_model] in a row the second one
    decides: the model after both is the model after the second alone. *)
Theorem set_model_twice (self : Trough F)
    (acc1 lag1 acc2 lag2 : list F) (eb1 eb2 : F) :
  set_model self acc1 lag1 eb1 ≫= (λ s1, set_model s1 acc2 lag2 eb2)
  = set_model self acc2 lag2 eb2.
Proof.
  destruct (set_model_effect self acc1 lag1 eb1) as (s1 & Hs1 & _).
  rewrite Hs1. cbn [mbind option_bind]. revert Hs1.
  unfold set_model.
  destruct (get_retreat_model_t self _ _) as [r|]; [|discriminate].
  cbn [mbind option_bind]. intros [= <-]. reflexivity.
Qed.

(** Property X4. Whatever calls of [set_model] and
    [compute_model_splines] follow the constructor, the model keeps
    every attribute that no parameter enters as the constructor set it,
    its lag and retreat arrays are those of its current parameters, and
    its antiderivative spline exists: only the splines can be out of
    date. *)
Theorem reachable_invariant (acc_params lag_params : list F)
    (acc_name lag_name : string) (eb angle : F)
    (insolation_file : list (F * F)) (retreat_file : list (list F))
    (init s : Trough F) :
  Trough_init acc_params lag_params acc_name lag_name eb angle
              insolation_file retreat_file = Some init →
  reachable init s →
  fixed_part s = fixed_part init ∧ arrays_current s ∧
  is_Some (int_retreat_model_t_spline s).
Proof.
  intros Hinit Hreach.
  destruct (Trough_init_shape _ _ _ _ _ _ _ _ _ Hinit)
    as (_ & _ & _ & _ & _ & Hlag & Hret & Hspl).
  apply reachable_keeps; [split; assumption|assumption|assumption].
Qed.
End TroughUpdates.

Section TroughEdges.
Context {F : Type} `{Num F} `{Special F} `{Scipy F} `{Submodels F}.

Lemma broadcast2_None (f : F → F → F) (a b : list F) :
  length a ≠ length b → length a ≠ 1 → length b ≠ 1 →
  broadcast2 f a b = None.
Proof.
  intros Hab Ha Hb. unfold broadcast2. rewrite decide_False by exact Hab.
  destruct a as [|x [|x' a]]; destruct b as [|y [|y' b]];
    cbn in *; congruence.
Qed.

(** The two arrays that [get_nearest_points] returns: the matches of the
    data pairs, then the zeros that [np.zeros_like] left where one data
    array is longer than the other. *)
Lemma get_nearest_points_shape (self : Trough F) (x_data y_data : list F)
    (dist_func : option DistFunc) (x_out y_out : list F) :
  get_nearest_points self x_data y_data dist_func = Some (x_out, y_out) →
  ∃ picks : list (F * F),
    length picks = length x_data `min` length y_data ∧
    x_out = picks.*1 ++ replicate (length x_data - length picks) (lit 0) ∧
    y_out = picks.*2 ++ replicate (length y_data - length picks) (lit 0).
Proof.
  intros Hg.
  destruct (get_trajectory self None) as [[x_model y_model]|] eqn:Htraj;
    [|unfold get_nearest_points in Hg; rewrite Htraj in Hg; discriminate].
  rewrite (get_nearest_points_picks _ _ _ _ _ _ Htraj) in Hg.
  destruct (mapM _ (zip x_data y_data)) as [picks|] eqn:Hm; [|discriminate].
  cbn in Hg. injection Hg as <- <-.
  apply length_mapM in Hm. rewrite length_zip in Hm.
  exists picks. split; [lia|].
  unfold zeros_like. rewrite !drop_replicate, length_zip, Hm. auto.
Qed.

(** Property X5. When the two data arrays differ in length,
    [get_nearest_points] still returns arrays of the lengths of its
    inputs: the positions of the longer array that have no partner keep
    the zero that [np.zeros_like] put there. *)
Theorem get_nearest_points_unequal_lengths (self : Trough F)
    (x_data y_data : list F) (dist_func : option DistFunc)
    (x_out y_out : list F) :
  get_nearest_points self x_data y_data dist_func = Some (x_out, y_out) →
  length x_out = length x_data ∧ length y_out = length y_data ∧
  (∀ i, length y_data ≤ i → i < length x_data → x_out !! i = Some (lit 0)) ∧
  (∀ i, length x_data ≤ i → i < length y_data → y_out !! i = Some (lit 0)).
Proof.
  intros Hg.
  destruct (get_nearest_points_shape _ _ _ _ _ _ Hg) as (picks & Hlen & -> & ->).
  rewrite !length_app, !length_fmap, !length_replicate.
  split; [lia|]. split; [lia|]. split.
  - intros i Hy Hx. rewrite lookup_app_r by (rewrite length_fmap; lia).
    apply lookup_replicate_2. rewrite length_fmap. lia.
  - intros i Hx Hy. rewrite lookup_app_r by (rewrite length_fmap; lia).
    apply lookup_replicate_2. rewrite length_fmap. lia.
Qed.

(** Property X6. [lnlikelihood] raises when the two data arrays differ
    in length and neither has length one: the two arrays of squared
    residuals cannot be added. *)
Theorem lnlikelihood_length_mismatch (self : Trough F) (x_data y_data : list F) :
  length x_data ≠ length y_data →
  length x_data ≠ 1 → length y_data ≠ 1 →
  lnlikelihood self x_data y_data = None.
Proof.
  intros Hxy Hx Hy. unfold lnlikelihood.
  destruct (get_nearest_points self x_data y_data None)
    as [[x_model y_model]|] eqn:Hg; [|reflexivity].
  cbn [mbind option_bind].
  destruct (get_nearest_points_shape _ _ _ _ _ _ Hg) as (picks & Hlen & Hxo & Hyo).
  assert (Hlx : length x_model = length x_data)
    by (rewrite Hxo, length_app, length_fmap, length_replicate; lia).
  assert (Hly : length y_model = length y_data)
    by (rewrite Hyo, length_app, length_fmap, length_replicate; lia).
  destruct (map fpow2 _) as [|xvar [|yvar [|? ?]]]; try reflexivity.
  rewrite (broadcast2_same_length fsub x_data x_model) by lia.
  rewrite (broadcast2_same_length fsub y_data y_model) by lia.
  cbn [mbind option_bind].
  rewrite broadcast2_None; [reflexivity| | |];
    rewrite !length_map, !length_zip_with; lia.
Qed.

(** [lnlikelihood] returns on data of equal length when the model has
    its two pixel factors and a trajectory that is not empty. *)
Lemma lnlikelihood_is_Some (self : Trough F) (x_data y_data : list F) (mx my : F) :
  length x_data = length y_data →
  meters_per_pixel self = [mx; my] →
  is_Some (int_retreat_model_t_spline self) →
  ins_times self ≠ [] →
  is_Some (lnlikelihood self x_data y_data).
Proof.
  intros Hl Hmpp [spl Hspl] Htimes.
  assert (Htraj : ∃ x_model y_model,
            get_trajectory self None = Some (x_model, y_model) ∧
            length x_model = length y_model ∧ x_model ≠ []).
  { unfold get_trajectory. rewrite Hspl. cbn [np_all mbind option_bind].
    do 2 eexists. split; [reflexivity|]. unfold get_xt, get_yt.
    rewrite !length_map. split; [reflexivity|].
    destruct (ins_times self); [congruence|discriminate]. }
  destruct Htraj as (x_model & y_model & Htraj & Hxy & Hne).
  assert (Hg : ∃ x_out y_out,
            get_nearest_points self x_data y_data None = Some (x_out, y_out)).
  { rewrite (get_nearest_points_picks _ _ _ _ _ _ Htraj). cbn [default].
    destruct (mapM (nearest_pick _L2_distance x_model y_model)
                   (zip x_data y_data)) as [picks|] eqn:Hm.
    - cbn. eauto.
    - exfalso. apply mapM_None_1 in Hm.
      apply Exists_exists in Hm as (d & _ & Hd).
      destruct (nearest_pick_L2_total x_model y_model d Hxy Hne) as [p Hp].
      congruence. }
  destruct Hg as (x_out & y_out & Hg).
  destruct (get_nearest_points_length _ _ _ _ _ _ Hl Hg) as [Hx Hy].
  unfold lnlikelihood. rewrite Hg, Hmpp. cbn [mbind option_bind map].
  rewrite (broadcast2_same_length fsub x_data x_out) by lia.
  rewrite (broadcast2_same_length fsub y_data y_out) by lia.
  cbn [mbind option_bind].
  rewrite broadcast2_same_length
    by (rewrite !length_map, !length_zip_with; lia).
  cbn [mbind option_bind]. eauto.
Qed.

(** Property X7. On a model that the constructor built from an
    insolation file with at least one row, also after any calls of
    [set_model] and [compute_model_splines], [lnlikelihood] returns a
    value for every two data arrays of equal length. *)
Theorem lnlikelihood_returns (acc_params lag_params : list F)
    (acc_name lag_name : string) (eb angle : F)
    (insolation_file : list (F * F)) (retreat_file : list (list F))
    (init s : Trough F) (x_data y_data : list F) :
  Trough_init acc_params lag_params acc_name lag_name eb angle
              insolation_file retreat_file = Some init →
  insolation_file ≠ [] →
  reachable init s →
  length x_data = length y_data →
  is_Some (lnlikelihood s x_data y_data).
Proof.
  intros Hinit Hfile Hreach Hl.
  destruct (Trough_init_shape _ _ _ _ _ _ _ _ _ Hinit)
    as (Htimes & Hmpp & _ & _ & _ & Hlag & Hret & Hspl).
  destruct (reachable_keeps init s (conj Hlag Hret) Hspl Hreach)
    as (Hfix & _ & Hs).
  assert (Hmpp' : meters_per_pixel s = [lit 500.0; lit 20.0]).
  { rewrite <- Hmpp. unfold fixed_part in Hfix. by simplify_eq. }
  apply (lnlikelihood_is_Some s x_data y_data _ _ Hl Hmpp' Hs).
  rewrite (fixed_part_ins_times _ _ Hfix), Htimes.
  destruct insolation_file; [congruence|discriminate].
Qed.
End TroughEdges.

(** ** More facts about the estimator *)

Section NegLikelihood.
Context {F : Type} `{Num F} `{Special F} `{Scipy F} `{Submodels F}.

(** [zip] stops at the shorter list. *)
Lemma zip_fst_take (names : list string) (values : list F) :
  (zip names values).*1 = take (length values) names.
Proof.
  revert values. induction names as [|k names IH]; intros [|v values]; cbn;
    try reflexivity.
  by rewrite IH.
Qed.

(** In [dict(zip(names, values))] a first name that does not come again
    has the first value. *)
Lemma dict_zip_first (k : string) (names : list string) (v : F) (rest : list F) :
  k ∉ names → dict_zip (k :: names) (v :: rest) !! k = Some v.
Proof.
  intros Hk. unfold dict_zip. cbn [zip_with].
  rewrite reverse_cons, list_to_map_app, lookup_union_r.
  - cbn. by simplify_map_eq.
  - apply not_elem_of_list_to_map_1.
    rewrite fmap_reverse, elem_of_reverse, zip_fst_take.
    intros Hin. apply elem_of_take in Hin as (j & Hj & _).
    apply Hk. exact (list_elem_of_lookup_2 _ _ _ Hj).
Qed.

(** Property X13. For an estimator whose first name is [errorbar],
    [neg_ln_likelihood] is decided by the first value of its array. The
    empty array raises [KeyError]: there is no errorbar. A negative
    first value gives the negated sentinel, whatever follows it and
    however short the array is. Any other first value raises
    [TypeError] at [set_model], however many values follow. The
    estimator is left unchanged in each case. *)
Theorem neg_ln_likelihood_by_first_value (self : MCMC F)
    (names : list string) (eb : F) (rest : list F) :
  parameter_names self = "errorbar" :: names → "errorbar" ∉ names →
  neg_ln_likelihood self [] = (Raised KeyError, self) ∧
  (fltb eb (lit 0) = true →
     neg_ln_likelihood self (eb :: rest) = (Returned (fneg sentinel), self)) ∧
  (fltb eb (lit 0) = false →
     neg_ln_likelihood self (eb :: rest) = (Raised TypeError, self)).
Proof.
  intros Hnames Hfirst. unfold neg_ln_likelihood.
  rewrite !ln_likelihood_cases, Hnames, (dict_zip_first _ _ _ _ Hfirst).
  split; [|split].
  - unfold dict_zip. rewrite zip_with_nil_r. cbn. rewrite lookup_empty.
    reflexivity.
  - intros ->. reflexivity.
  - intros ->. reflexivity.
Qed.
End NegLikelihood.

(** ** More facts about the sampling loop *)

Section LoopRecordFacts.
Context {F : Type} `{Num F} `{Sampler F}.

Lemma autocorr_record_length (ndim subIter n k : nat) :
  k ≤ n → length (autocorr_record (F:=F) ndim subIter n k) = n.
Proof.
  intros Hk. unfold autocorr_record.
  rewrite length_app, length_map, length_seq, length_replicate. lia.
Qed.

(** Writing the mean of the next check into the record of [k] checks
    gives the record of [k + 1] checks. *)
Lemma autocorr_record_insert (ndim subIter n k : nat) :
  k < n →
  <[k := fmean (get_autocorr_time ndim (S k * subIter))]>
    (autocorr_record ndim subIter n k)
  = autocorr_record ndim subIter n (S k).
Proof.
  intros Hk. unfold autocorr_record.
  rewrite insert_app_r_alt by (rewrite length_map, length_seq; lia).
  rewrite length_map, length_seq. replace (k - k) with 0 by lia.
  replace (n - k) with (S (n - S k)) by lia. cbn [replicate].
  rewrite seq_S, map_app, <- app_assoc. reflexivity.
Qed.

(** The loop from a state in which [k] checks have been made and
    recorded: it returns with the record of the checks it has made. *)
Lemma sample_loop_record (ndim subIter maxSteps : nat) :
  0 < subIter →
  ∀ steps s k,
    k * subIter ≤ iteration s → iteration s < S k * subIter →
    index s = k →
    autocorr s = autocorr_record ndim subIter (maxSteps / subIter) k →
    iteration s + steps = maxSteps →
    old_tau s = previous_tau ndim subIter (S k) →
    converged s = false →
    ∃ s', sample_loop ndim subIter steps s = Some s' ∧
      index s' ≤ maxSteps / subIter ∧
      autocorr s' = autocorr_record ndim subIter (maxSteps / subIter) (index s') ∧
      ((converged s' = true ∧ iteration s' = index s' * subIter ∧
        iteration s' ≤ maxSteps)
       ∨ (converged s' = false ∧ iteration s' = maxSteps ∧
          index s' = maxSteps / subIter)).
Proof.
  intros Hsub.
  induction steps as [|steps IH];
    intros s k Hlo Hhi Hidx Hrec Hsum Hold Hconv.
  - exists s. split; [reflexivity|].
    assert (Hk : k = maxSteps / subIter).
    { apply (Nat.div_unique maxSteps subIter k (maxSteps - subIter * k)); lia. }
    split; [lia|]. split; [rewrite Hidx; exact Hrec|].
    right. split; [exact Hconv|]. split; lia.
  - cbn [sample_loop].
    destruct (decide (S (iteration s) mod subIter ≠ 0)) as [Hmod|Hmod].
    + apply (IH _ k); cbn; try assumption; try lia.
      destruct (decide (S (iteration s) = S k * subIter)) as [Heq|]; [|lia].
      exfalso. apply Hmod. rewrite Heq. apply Nat.Div0.mod_mul.
    + assert (Hzero : S (iteration s) mod subIter = 0)
        by (destruct (decide (S (iteration s) mod subIter = 0)); [assumption|tauto]).
      assert (Hit : S (iteration s) = S k * subIter).
      { apply Nat.Div0.div_exact in Hzero.
        set (q := S (iteration s) / subIter) in Hzero.
        rewrite (Nat.mul_comm subIter q) in Hzero.
        destruct (Nat.lt_trichotomy q (S k)) as [Hlt|[Heq|Hgt]].
        - assert (q * subIter ≤ k * subIter) by (apply Nat.mul_le_mono_r; lia). lia.
        - rewrite Heq in Hzero. exact Hzero.
        - assert (S (S k) * subIter ≤ q * subIter)
            by (apply Nat.mul_le_mono_r; lia).
          lia. }
      assert (Hslot : S k ≤ maxSteps / subIter)
        by (apply (Nat.div_le_lower_bound maxSteps subIter (S k)); lia).
      assert (Hroom : index s < length (autocorr s))
        by (rewrite Hrec, autocorr_record_length by lia; lia).
      rewrite (decide_True _ _ Hroom).
      rewrite Hold, Hit, Hidx, Hrec.
      rewrite autocorr_record_insert by lia.
      destruct (stable_value ndim subIter (S k)) as (b & Hb & _).
      rewrite Hb. cbn [mbind option_bind].
      destruct (long_enough _ _ && b) eqn:Hc.
      * eexists. split; [reflexivity|]. cbn.
        split; [exact Hslot|]. split; [reflexivity|]. left.
        split; [reflexivity|]. split; [reflexivity|]. lia.
      * apply (IH _ (S k)); cbn; try reflexivity; lia.
Qed.
End LoopRecordFacts.

Section LoopRecordClaims.
Context {F : Type} `{Num F} `{Submodels F} `{Sampler F}.

(** Property X14. With a positive check interval the loop never writes
    past the end of [autocorr]: it returns, [index] counts the checks
    made and is at most [maxSteps // subIter], the length of the array;
    the array holds the mean estimate of each check made, in order,
    followed by zeros. After convergence the iteration count is [index]
    times [subIter]; without it every slot of the array is filled. *)
Theorem sampling_autocorr_record (self : MCMC F) :
  0 < subIter self →
  ∃ s, sampling self = Some s ∧
    index s ≤ maxSteps self / subIter self ∧
    autocorr s = autocorr_record (ndim self) (subIter self)
                   (maxSteps self / subIter self) (index s) ∧
    (converged s = true → iteration s = index s * subIter self) ∧
    (converged s = false → index s = maxSteps self / subIter self).
Proof.
  intros Hsub. unfold sampling. rewrite decide_False by lia.
  destruct (sample_loop_record (ndim self) (subIter self) (maxSteps self) Hsub
              (maxSteps self)
              {| iteration := 0; index := 0;
                 autocorr := replicate (maxSteps self / subIter self) (lit 0);
                 old_tau := Inf; converged := false |} 0)
    as (s' & Hrun & Hidx & Hrec & Hend); cbn; try reflexivity; try lia.
  - unfold autocorr_record. cbn. rewrite Nat.sub_0_r. reflexivity.
  - exists s'. split; [exact Hrun|]. split; [exact Hidx|]. split; [exact Hrec|].
    destruct Hend as [(Hc & Hit & _)|(Hc & _ & Hfull)]; rewrite Hc.
    + split; [intros _; exact Hit|discriminate].
    + split; [discriminate|intros _; exact Hfull].
Qed.

(** Property X15. [old_tau] starts as [np.inf], so the first check
    cannot pass as soon as one estimate of that check is not negative:
    the loop then declares convergence after two checks at the
    earliest. *)
Theorem sampling_needs_two_checks (self : MCMC F) (p : nat) :
  0 < subIter self → p < ndim self →
  fltb (autocorr_time_of (subIter self) p) (lit 0) = false →
  ∃ s, sampling self = Some s ∧
    (converged s = true → 2 * subIter self ≤ iteration s).
Proof.
  intros Hsub Hp Hpos. unfold sampling. rewrite decide_False by lia.
  destruct (sample_loop_run (ndim self) (subIter self) (maxSteps self) Hsub
              (maxSteps self)
              {| iteration := 0; index := 0;
                 autocorr := replicate (maxSteps self / subIter self) (lit 0);
                 old_tau := Inf; converged := false |} 0)
    as (s' & Hrun & Hres); cbn; try reflexivity; try lia.
  - apply length_replicate.
  - exists s'. split; [exact Hrun|]. intros Hc.
    destruct Hres as [(_ & k' & Hk' & Hit & _ & Hpass & _)|(Hc' & _)];
      [|congruence].
    destruct (decide (k' = 1)) as [->|Hne].
    + exfalso. apply check_passes_true in Hpass.
      apply (first_check_fails (ndim self) (subIter self) p Hp); [|exact Hpass].
      rewrite Nat.mul_1_l. exact Hpos.
    + rewrite Hit.
      assert (2 * subIter self ≤ k' * subIter self)
        by (apply Nat.mul_le_mono_r; lia).
      lia.
Qed.
End LoopRecordClaims.

(** ** More facts about updates and distances *)

Section MoreTroughFacts.
Context {F : Type} `{Num F} `{Special F} `{Scipy F} `{Submodels F}.

(** Property X16. [set_model] on a model whose splines are current
    leaves them current exactly when it leaves the lag array and the
    retreat array as they were: any change of either array makes the
    splines stale until [compute_model_splines] is called. *)
Theorem set_model_stale_iff (self s1 : Trough F)
    (acc_params lag_params : list F) (eb : F) :
  splines_current self →
  set_model self acc_params lag_params eb = Some s1 →
  (splines_current s1 ↔
   lag_model_t s1 = lag_model_t self ∧
   retreat_model_t s1 = retreat_model_t self).
Proof.
  intros (Hc1 & Hc2 & Hc3) Hset.
  destruct (set_model_effect self acc_params lag_params eb)
    as (t & Ht & _ & _ & _ & _ & _ & Htimes & Hs1 & Hs2 & Hs3).
  rewrite Hset in Ht. injection Ht as <-.
  unfold splines_current. rewrite Hs1, Hs2, Hs3, Htimes, Hc1, Hc2, Hc3.
  split.
  - intros (Ha & Hb & _). split; congruence.
  - intros (-> & ->). auto.
Qed.

(** Property X17. With a distance function of the caller's,
    [get_nearest_points] calls it once per data pair with the model
    abscissas, the data abscissa, the model ordinates and the data
    ordinate, in this order, and returns the trajectory point at the
    position where the array it returns is least. *)
Theorem get_nearest_points_custom_dist (self : Trough F)
    (x_data y_data x_model y_model x_out y_out : list F) (dist_func : DistFunc) :
  get_trajectory self None = Some (x_model, y_model) →
  get_nearest_points self x_data y_data (Some dist_func) = Some (x_out, y_out) →
  ∀ i xdi ydi, x_data !! i = Some xdi → y_data !! i = Some ydi →
    ∃ dist ind xm ym,
      dist_func x_model xdi y_model ydi = Some dist ∧
      argmin dist = Some ind ∧
      x_model !! ind = Some xm ∧ y_model !! ind = Some ym ∧
      x_out !! i = Some xm ∧ y_out !! i = Some ym.
Proof.
  intros Htraj Hg i xdi ydi Hxi Hyi.
  rewrite (get_nearest_points_picks _ _ _ _ _ _ Htraj) in Hg. cbn [default] in Hg.
  destruct (mapM _ (zip x_data y_data)) as [picks|] eqn:Hm; [|discriminate].
  cbn in Hg. injection Hg as <- <-. apply mapM_Some_1 in Hm.
  assert (Hz : zip x_data y_data !! i = Some (xdi, ydi))
    by (rewrite lookup_zip_with, Hxi, Hyi; reflexivity).
  destruct (Forall2_lookup_l _ _ _ _ _ Hm Hz) as (p & Hp & Hpick).
  pose proof (lookup_lt_Some _ _ _ Hp) as Hlt.
  revert Hpick. unfold nearest_pick, id. cbn [fst snd].
  destruct (dist_func x_model xdi y_model ydi) as [dist|] eqn:Hdist;
    [|discriminate].
  cbn [mbind option_bind].
  destruct (argmin dist) as [ind|] eqn:Hind; [|discriminate].
  cbn [mbind option_bind].
  destruct (x_model !! ind) as [xm|] eqn:Hxm; [|discriminate].
  cbn [mbind option_bind].
  destruct (y_model !! ind) as [ym|] eqn:Hym; [|discriminate].
  cbn [mbind option_bind]. intros [= <-].
  exists dist, ind, xm, ym.
  rewrite !lookup_app_l by (rewrite length_fmap; exact Hlt).
  rewrite !list_lookup_fmap, Hp. auto 10.
Qed.
End MoreTroughFacts.

Section SurplusValues.
Context {F : Type} `{Num F} `{Special F} `{Scipy F} `{Submodels F}.

Lemma zip_surplus (names : list string) (values extra : list F) :
  length names ≤ length values →
  zip names (values ++ extra) = zip names values.
Proof.
  revert values. induction names as [|k names IH]; intros [|v values] Hlen;
    cbn in *; try reflexivity; try lia.
  rewrite IH by lia. reflexivity.
Qed.

(** Property X18. [neg_ln_likelihood] ignores the values of an array
    past the number of names: [zip] stops at the last name. *)
Theorem neg_ln_likelihood_surplus (self : MCMC F) (values extra : list F) :
  length (parameter_names self) ≤ length values →
  neg_ln_likelihood self (values ++ extra) = neg_ln_likelihood self values.
Proof.
  intros Hlen. unfold neg_ln_likelihood, dict_zip.
  rewrite zip_surplus by exact Hlen. reflexivity.
Qed.
End SurplusValues.

(** ** The matching loop of the plotting script *)

Section FigureScriptFacts.
Context {F : Type} `{Num F}.

Lemma figure_nearest_step_None (x_model y_model ts : list F)
    (l : list (nat * (F * F))) :
  foldl (figure_nearest_step x_model y_model ts) None l = None.
Proof. induction l as [|it l IH]; [reflexivity|]. cbn. exact IH. Qed.

Lemma figure_nearest_step_pick (x_model y_model ts xn yn tn : list F)
    (i : nat) (d : F * F) :
  figure_nearest_step x_model y_model ts (Some (xn, yn, tn)) (i, d) =
  p ← figure_pick x_model y_model ts d;
  Some (<[i := p.1.1]> xn, <[i := p.1.2]> yn, <[i := p.2]> tn).
Proof.
  destruct d as [xdi ydi]. unfold figure_nearest_step, figure_pick. cbn.
  destruct (_L2_distance x_model xdi y_model ydi) as [dist|]; [|reflexivity]. cbn.
  destruct (argmin dist) as [ind|]; [|reflexivity]. cbn.
  destruct (x_model !! ind) as [xm|]; [|reflexivity]. cbn.
  destruct (y_model !! ind) as [ym|]; [|reflexivity]. cbn.
  destruct (ts !! ind) as [tm|]; reflexivity.
Qed.

Lemma splice_step {A : Type} (s n : nat) (out : list A) (v : A) (mid : list A) :
  s + S n ≤ length out →
  take (S s) (<[s := v]> out) ++ mid ++ drop (S s + n) (<[s := v]> out)
  = take s out ++ (v :: mid) ++ drop (s + S n) out.
Proof.
  intros Hlen.
  rewrite (take_S_r _ _ v) by (apply list_lookup_insert_eq; lia).
  rewrite take_insert_ge by lia. rewrite drop_insert_lt by lia.
  rewrite <- app_assoc. cbn.
  replace (S (s + n)) with (s + S n) by lia. reflexivity.
Qed.

(** The loop of the script from position [s] on. *)
Lemma figure_fold (x_model y_model ts : list F) (l : list (F * F)) (s : nat)
    (xn yn tn : list F) :
  s + length l ≤ length xn → s + length l ≤ length yn →
  s + length l ≤ length tn →
  foldl (figure_nearest_step x_model y_model ts) (Some (xn, yn, tn))
        (zip (seq s (length l)) l) =
  picks ← mapM (figure_pick x_model y_model ts) l;
  Some (take s xn ++ picks.*1.*1 ++ drop (s + length l) xn,
        take s yn ++ picks.*1.*2 ++ drop (s + length l) yn,
        take s tn ++ picks.*2 ++ drop (s + length l) tn).
Proof.
  revert s xn yn tn.
  induction l as [|d l IH]; intros s xn yn tn Hx Hy Ht.
  - cbn. rewrite Nat.add_0_r, !take_drop. reflexivity.
  - cbn [length seq zip zip_with foldl]. rewrite figure_nearest_step_pick.
    cbn [mapM].
    destruct (figure_pick x_model y_model ts d) as [[[xm ym] tm]|] eqn:Hp.
    + cbn [mbind option_bind fst snd]. cbn in Hx, Hy, Ht.
      rewrite IH by (rewrite length_insert; lia).
      destruct (mapM (figure_pick x_model y_model ts) l) as [picks|];
        [|reflexivity].
      cbn. f_equal. f_equal; [f_equal|].
      * apply (splice_step s (length l) xn xm). lia.
      * apply (splice_step s (length l) yn ym). lia.
      * apply (splice_step s (length l) tn tm). lia.
    + cbn. apply figure_nearest_step_None.
Qed.

Lemma figure_pick_nearest_pick (x_model y_model ts : list F) (d : F * F)
    (p : F * F * F) :
  figure_pick x_model y_model ts d = Some p →
  nearest_pick _L2_distance x_model y_model d = Some p.1.
Proof.
  unfold figure_pick, nearest_pick.
  destruct (_L2_distance x_model d.1 y_model d.2) as [dist|]; [|discriminate].
  cbn [mbind option_bind].
  destruct (argmin dist) as [ind|]; [|discriminate]. cbn [mbind option_bind].
  destruct (x_model !! ind) as [xm|]; [|discriminate]. cbn [mbind option_bind].
  destruct (y_model !! ind) as [ym|]; [|discriminate]. cbn [mbind option_bind].
  destruct (ts !! ind) as [tm|]; [|discriminate]. cbn [mbind option_bind].
  intros [= <-]. reflexivity.
Qed.
End FigureScriptFacts.

Section FigureScriptClaims.
Context {F : Type} `{Num F} `{Special F} `{Scipy F} `{Submodels F}.

(** Property X19. The matching loop of the plotting script, when it
    returns, has found for every observed point the trajectory point
    that [Trough.get_nearest_points] returns for a model with the
    plotted trajectory, and has put beside it the time that stands at
    the same position of the time array. *)
Theorem figure_nearest_matches (self : Trough F)
    (x_model y_model ts xdata ydata xnear ynear timenear : list F) :
  get_trajectory self None = Some (x_model, y_model) →
  figure_nearest x_model y_model ts xdata ydata
    = Some (xnear, ynear, timenear) →
  get_nearest_points self xdata ydata None = Some (xnear, ynear) ∧
  ∀ i xdi ydi, xdata !! i = Some xdi → ydata !! i = Some ydi →
    ∃ dist ind xm ym tm,
      _L2_distance x_model xdi y_model ydi = Some dist ∧
      argmin dist = Some ind ∧
      x_model !! ind = Some xm ∧ y_model !! ind = Some ym ∧
      ts !! ind = Some tm ∧
      xnear !! i = Some xm ∧ ynear !! i = Some ym ∧
      timenear !! i = Some tm.
Proof.
  intros Htraj Hfig. unfold figure_nearest, enumerate in Hfig.
  rewrite (figure_fold x_model y_model ts (zip xdata ydata) 0) in Hfig
    by (rewrite zeros_like_length, length_zip; lia).
  destruct (mapM (figure_pick x_model y_model ts) (zip xdata ydata))
    as [picks|] eqn:Hm; [|discriminate].
  cbn in Hfig. injection Hfig as <- <- <-.
  apply mapM_Some_1 in Hm. split.
  - rewrite (get_nearest_points_picks _ _ _ _ _ _ Htraj). cbn [default].
    assert (Hn : mapM (nearest_pick _L2_distance x_model y_model)
                      (zip xdata ydata) = Some picks.*1).
    { apply mapM_Some_2. apply Forall2_fmap_r.
      eapply Forall2_impl; [exact Hm|].
      intros d p Hp. exact (figure_pick_nearest_pick _ _ _ _ _ Hp). }
    rewrite Hn. reflexivity.
  - intros i xdi ydi Hxi Hyi.
    assert (Hz : zip xdata ydata !! i = Some (xdi, ydi))
      by (rewrite lookup_zip_with, Hxi, Hyi; reflexivity).
    destruct (Forall2_lookup_l _ _ _ _ _ Hm Hz) as (p & Hp & Hpick).
    pose proof (lookup_lt_Some _ _ _ Hp) as Hlt.
    revert Hpick. unfold figure_pick. cbn [fst snd].
    destruct (_L2_distance x_model xdi y_model ydi) as [dist|] eqn:Hdist;
      [|discriminate].
    cbn [mbind option_bind].
    destruct (argmin dist) as [ind|] eqn:Hind; [|discriminate].
    cbn [mbind option_bind].
    destruct (x_model !! ind) as [xm|] eqn:Hxm; [|discriminate].
    cbn [mbind option_bind].
    destruct (y_model !! ind) as [ym|] eqn:Hym; [|discriminate].
    cbn [mbind option_bind].
    destruct (ts !! ind) as [tm|] eqn:Htm; [|discriminate].
    cbn [mbind option_bind]. intros [= <-].
    exists dist, ind, xm, ym, tm.
    rewrite !lookup_app_l by (rewrite !length_fmap; exact Hlt).
    rewrite !list_lookup_fmap, Hp. auto 10.
Qed.
End FigureScriptClaims.

(** ** The further theorems at the scenario *)

Import ScenarioRuns.

Lemma trough_updated_value :
  set_model (tr mcmc0) [2%Q] [7%Q] 3%Q = Some trough_updated.
Proof. vm_cast_no_check (eq_refl (Some trough_updated)). Qed.

Lemma trough_fresh_value :
  Trough_init [2%Q] [7%Q] "linear" "constant" 3%Q 5.0%Q
              insolation_file retreat_file = Some trough_fresh.
Proof. vm_cast_no_check (eq_refl (Some trough_fresh)). Qed.

Lemma trough_same_value :
  set_model (tr mcmc0) [1%Q] [5%Q] 1%Q = Some trough_same.
Proof. vm_cast_no_check (eq_refl (Some trough_same)). Qed.

Lemma insolation_file_rows : insolation_file ≠ [].
Proof. discriminate. Qed.

Lemma nearest_short_value :
  get_nearest_points (tr mcmc0) (xdata mcmc0) ydata_short None
  = Some (nearest_short.1, nearest_short.2).
Proof. vm_compute. reflexivity. Qed.

Lemma nearest_L1_value :
  get_nearest_points (tr mcmc0) (xdata mcmc0) (ydata mcmc0) (Some L1_distance)
  = Some (nearest_L1.1, nearest_L1.2).
Proof. vm_compute. reflexivity. Qed.

Lemma figure0_value :
  figure_nearest trajectory0.1 trajectory0.2 (ins_times (tr mcmc0))
                 (xdata mcmc0) (ydata mcmc0)
  = Some (figure0.1.1, figure0.1.2, figure0.2).
Proof. vm_compute. reflexivity. Qed.

Lemma reachable_trough_updated :
  reachable (tr mcmc0) (compute_model_splines trough_updated).
Proof.
  apply reach_compute_model_splines.
  exact (reach_set_model _ _ _ _ _ _ (reach_init _) trough_updated_value).
Qed.

(** Property X1 at the scenario: rate 1 to 2, lag 5 to 7, errorbar 1 to 3. *)
Lemma set_model_then_splines_is_init_witness :
  Trough_init [1%Q] [5%Q] "linear" "constant" 1%Q 5.0%Q
              insolation_file retreat_file = Some (tr mcmc0) ∧
  set_model (tr mcmc0) [2%Q] [7%Q] 3%Q = Some trough_updated ∧
  Trough_init [2%Q] [7%Q] "linear" "constant" 3%Q 5.0%Q
              insolation_file retreat_file = Some trough_fresh ∧
  compute_model_splines trough_updated = trough_fresh.
Proof.
  split; [exact trough0_init_value|]. split; [exact trough_updated_value|].
  split; [exact trough_fresh_value|].
  exact (set_model_then_splines_is_init _ _ _ _ _ _ _ _ _ _ _ _ _ _
           trough0_init_value trough_updated_value trough_fresh_value).
Defined.

(** Property X2 at the scenario. *)
Lemma set_model_round_trip_witness :
  Trough_init [1%Q] [5%Q] "linear" "constant" 1%Q 5.0%Q
              insolation_file retreat_file = Some (tr mcmc0) ∧
  set_model (tr mcmc0) [1%Q] [5%Q] 1%Q = Some trough_same ∧
  compute_model_splines trough_same = tr mcmc0.
Proof.
  split; [exact trough0_init_value|]. split; [exact trough_same_value|].
  exact (set_model_round_trip _ _ _ _ _ _ _ _ _ _
           trough0_init_value trough_same_value).
Defined.

(** Property X4 at the scenario: an update, then the splines. *)
Lemma reachable_invariant_witness :
  Trough_init [1%Q] [5%Q] "linear" "constant" 1%Q 5.0%Q
              insolation_file retreat_file = Some (tr mcmc0) ∧
  reachable (tr mcmc0) (compute_model_splines trough_updated) ∧
  fixed_part (compute_model_splines trough_updated) = fixed_part (tr mcmc0) ∧
  arrays_current (compute_model_splines trough_updated) ∧
  is_Some (int_retreat_model_t_spline (compute_model_splines trough_updated)).
Proof.
  split; [exact trough0_init_value|]. split; [exact reachable_trough_updated|].
  exact (reachable_invariant _ _ _ _ _ _ _ _ _ _
           trough0_init_value reachable_trough_updated).
Defined.

(** Property X5 at the scenario: three abscissas, two ordinates. *)
Lemma get_nearest_points_unequal_lengths_witness :
  get_nearest_points (tr mcmc0) (xdata mcmc0) ydata_short None
    = Some (nearest_short.1, nearest_short.2) ∧
  length nearest_short.1 = length (xdata mcmc0) ∧
  length nearest_short.2 = length ydata_short ∧
  (∀ i, length ydata_short ≤ i → i < length (xdata mcmc0) →
        nearest_short.1 !! i = Some (lit 0)) ∧
  (∀ i, length (xdata mcmc0) ≤ i → i < length ydata_short →
        nearest_short.2 !! i = Some (lit 0)).
Proof.
  split; [exact nearest_short_value|].
  exact (get_nearest_points_unequal_lengths _ _ _ _ _ _ nearest_short_value).
Defined.

(** Property X6 at the scenario: lengths 3 and 2. *)
Lemma lnlikelihood_length_mismatch_witness :
  length (xdata mcmc0) ≠ length ydata_short ∧
  length (xdata mcmc0) ≠ 1 ∧ length ydata_short ≠ 1 ∧
  lnlikelihood (tr mcmc0) (xdata mcmc0) ydata_short = None.
Proof.
  assert (H1 : length (xdata mcmc0) ≠ length ydata_short) by (cbn; lia).
  assert (H2 : length (xdata mcmc0) ≠ 1) by (cbn; lia).
  assert (H3 : length ydata_short ≠ 1) by (cbn; lia).
  split; [exact H1|]. split; [exact H2|]. split; [exact H3|].
  exact (lnlikelihood_length_mismatch (tr mcmc0) _ _ H1 H2 H3).
Defined.

(** Property X7 at the scenario: the updated model, the observed data. *)
Lemma lnlikelihood_returns_witness :
  Trough_init [1%Q] [5%Q] "linear" "constant" 1%Q 5.0%Q
              insolation_file retreat_file = Some (tr mcmc0) ∧
  insolation_file ≠ [] ∧
  reachable (tr mcmc0) (compute_model_splines trough_updated) ∧
  length (xdata mcmc0) = length (ydata mcmc0) ∧
  is_Some (lnlikelihood (compute_model_splines trough_updated)
                        (xdata mcmc0) (ydata mcmc0)).
Proof.
  assert (Hlen : length (xdata mcmc0) = length (ydata mcmc0)) by reflexivity.
  split; [exact trough0_init_value|]. split; [exact insolation_file_rows|].
  split; [exact reachable_trough_updated|]. split; [exact Hlen|].
  exact (lnlikelihood_returns _ _ _ _ _ _ _ _ _ _ _ _
           trough0_init_value insolation_file_rows reachable_trough_updated Hlen).
Defined.

(** Property X13 at the scenario: the arrays [[]] and [[1, 1]]. *)
Lemma neg_ln_likelihood_by_first_value_witness :
  parameter_names mcmc0 = "errorbar" :: ["acc_rate"; "lag_constant"] ∧
  ("errorbar" ∉ ["acc_rate"; "lag_constant"]) ∧
  neg_ln_likelihood mcmc0 [] = (Raised KeyError, mcmc0) ∧
  (fltb 1%Q (lit 0) = true →
     neg_ln_likelihood mcmc0 [1%Q; 1%Q] = (Returned (fneg sentinel), mcmc0)) ∧
  (fltb 1%Q (lit 0) = false →
     neg_ln_likelihood mcmc0 [1%Q; 1%Q] = (Raised TypeError, mcmc0)).
Proof.
  assert (Hnames : parameter_names mcmc0
                   = "errorbar" :: ["acc_rate"; "lag_constant"]) by reflexivity.
  assert (Hfirst : "errorbar" ∉ ["acc_rate"; "lag_constant"]).
  { intros Hin. apply elem_of_cons in Hin as [Hin|Hin]; [discriminate Hin|].
    apply elem_of_cons in Hin as [Hin|Hin]; [discriminate Hin|].
    by apply elem_of_nil in Hin. }
  split; [exact Hnames|]. split; [exact Hfirst|].
  exact (neg_ln_likelihood_by_first_value mcmc0 ["acc_rate"; "lag_constant"]
           1%Q [1%Q] Hnames Hfirst).
Defined.

(** Property X14 at the scenario: a check every 10 of 100 iterations. *)
Lemma sampling_autocorr_record_witness :
  0 < subIter mcmc0 ∧
  ∃ s, sampling mcmc0 = Some s ∧
    index s ≤ maxSteps mcmc0 / subIter mcmc0 ∧
    autocorr s = autocorr_record (ndim mcmc0) (subIter mcmc0)
                   (maxSteps mcmc0 / subIter mcmc0) (index s) ∧
    (converged s = true → iteration s = index s * subIter mcmc0) ∧
    (converged s = false → index s = maxSteps mcmc0 / subIter mcmc0).
Proof.
  assert (Hpos : 0 < subIter mcmc0) by (vm_compute; lia).
  split; [exact Hpos|]. exact (sampling_autocorr_record mcmc0 Hpos).
Defined.

(** Property X15 at the scenario: the estimate 1 is not negative. *)
Lemma sampling_needs_two_checks_witness :
  0 < subIter mcmc0 ∧ 0 < ndim mcmc0 ∧
  fltb (autocorr_time_of (subIter mcmc0) 0) (lit 0) = false ∧
  ∃ s, sampling mcmc0 = Some s ∧
    (converged s = true → 2 * subIter mcmc0 ≤ iteration s).
Proof.
  assert (Hpos : 0 < subIter mcmc0) by (vm_compute; lia).
  assert (Hdim : 0 < ndim mcmc0) by (vm_compute; lia).
  assert (Htau : fltb (autocorr_time_of (subIter mcmc0) 0) (lit 0) = false)
    by reflexivity.
  split; [exact Hpos|]. split; [exact Hdim|]. split; [exact Htau|].
  exact (sampling_needs_two_checks mcmc0 0 Hpos Hdim Htau).
Defined.

Lemma trough0_splines_current : splines_current (tr mcmc0).
Proof.
  exact (Trough_init_splines_current _ _ _ _ _ _ _ _ _ trough0_init_value).
Qed.

(** Property X16 at the scenario: the update changes both arrays. *)
Lemma set_model_stale_iff_witness :
  splines_current (tr mcmc0) ∧
  set_model (tr mcmc0) [2%Q] [7%Q] 3%Q = Some trough_updated ∧
  (splines_current trough_updated ↔
   lag_model_t trough_updated = lag_model_t (tr mcmc0) ∧
   retreat_model_t trough_updated = retreat_model_t (tr mcmc0)).
Proof.
  split; [exact trough0_splines_current|]. split; [exact trough_updated_value|].
  exact (set_model_stale_iff _ _ _ _ _ trough0_splines_current
           trough_updated_value).
Defined.

(** Property X17 at the scenario: the sum of absolute differences. *)
Lemma get_nearest_points_custom_dist_witness :
  get_trajectory (tr mcmc0) None = Some (trajectory0.1, trajectory0.2) ∧
  get_nearest_points (tr mcmc0) (xdata mcmc0) (ydata mcmc0) (Some L1_distance)
    = Some (nearest_L1.1, nearest_L1.2) ∧
  ∀ i xdi ydi, xdata mcmc0 !! i = Some xdi → ydata mcmc0 !! i = Some ydi →
    ∃ dist ind xm ym,
      L1_distance trajectory0.1 xdi trajectory0.2 ydi = Some dist ∧
      argmin dist = Some ind ∧
      trajectory0.1 !! ind = Some xm ∧ trajectory0.2 !! ind = Some ym ∧
      nearest_L1.1 !! i = Some xm ∧ nearest_L1.2 !! i = Some ym.
Proof.
  split; [exact trajectory0_value|]. split; [exact nearest_L1_value|].
  exact (get_nearest_points_custom_dist _ _ _ _ _ _ _ _
           trajectory0_value nearest_L1_value).
Defined.

(** Property X18 at the scenario: three values and one too many. *)
Lemma neg_ln_likelihood_surplus_witness :
  length (parameter_names mcmc0) ≤ length [1%Q; 1%Q; 7%Q] ∧
  neg_ln_likelihood mcmc0 ([1%Q; 1%Q; 7%Q] ++ [99%Q])
    = neg_ln_likelihood mcmc0 [1%Q; 1%Q; 7%Q].
Proof.
  assert (Hlen : length (parameter_names mcmc0) ≤ length [1%Q; 1%Q; 7%Q])
    by (vm_compute; lia).
  split; [exact Hlen|].
  exact (neg_ln_likelihood_surplus mcmc0 [1%Q; 1%Q; 7%Q] [99%Q] Hlen).
Defined.

(** Property X19 at the scenario. *)
Lemma figure_nearest_matches_witness :
  get_trajectory (tr mcmc0) None = Some (trajectory0.1, trajectory0.2) ∧
  figure_nearest trajectory0.1 trajectory0.2 (ins_times (tr mcmc0))
                 (xdata mcmc0) (ydata mcmc0)
    = Some (figure0.1.1, figure0.1.2, figure0.2) ∧
  get_nearest_points (tr mcmc0) (xdata mcmc0) (ydata mcmc0) None
    = Some (figure0.1.1, figure0.1.2) ∧
  ∀ i xdi ydi, xdata mcmc0 !! i = Some xdi → ydata mcmc0 !! i = Some ydi →
    ∃ dist ind xm ym tm,
      _L2_distance trajectory0.1 xdi trajectory0.2 ydi = Some dist ∧
      argmin dist = Some ind ∧
      trajectory0.1 !! ind = Some xm ∧ trajectory0.2 !! ind = Some ym ∧
      ins_times (tr mcmc0) !! ind = Some tm ∧
      figure0.1.1 !! i = Some xm ∧ figure0.1.2 !! i = Some ym ∧
      figure0.2 !! i = Some tm.
Proof.
  split; [exact trajectory0_value|]. split; [exact figure0_value|].
  exact (figure_nearest_matches _ _ _ _ _ _ _ _ _
           trajectory0_value figure0_value).
Defined.
